(** * pyrivet/rivet.py: the codec between Python values and rivet_console text

    A shallow embedding of the data model, the three [save] encoders and the
    three parsers of [src/pyrivet/rivet.py], followed by the properties the
    specification states about them.

    Modelling conventions.
    - [bytes] values are lists of 8-bit characters, [str] values are lists of
      Unicode code points; [str(line, 'utf-8')] is a strict UTF-8 decoder.
    - The numbers a caller puts into the data model (coordinates, appearance
      values, distances, corners given to [common_bounds]) are modelled by the
      exact rational they denote, in [Q], with exact arithmetic; Python's [==]
      on numbers is [Qeq].  The rounding of float arithmetic, and what Python
      does with numbers that denote no rational or that ['{:f}'] does not
      write as they are (an infinity, NaN, the sign of a zero, an int beyond
      the floats, a Fraction), are outside this part of the model.
    - The numbers the parsers return are modelled as the code builds them: an
      int in [Z], a Fraction as a reduced rational in [Q], and a float as an
      IEEE 754 binary64 value, with its rounding, its signed zeros, its
      infinities and NaN.
    - An exception is a value of [exn]; code that may raise returns
      [result A = exn + A].
    - A text stream is the sequence of strings passed to [write] since it was
      last truncated at position 0. *)

From Stdlib Require Import String Ascii List Bool Arith ZArith NArith QArith.
From Stdlib Require Import Qminmax Qround Qabs DecimalString Lia Lqa.
From Stdlib Require DecimalPos DecimalZ.
From Stdlib Require Import SpecFloat.
Import ListNotations.

Set Implicit Arguments.

(** ** Exceptions and the error monad *)

Inductive exn : Type :=
| IndexError
| TypeError
| ZeroDivisionError
| UnicodeDecodeError
| BuiltinValueError                  (* ValueError raised by a builtin *)
| ValueError (msg : list N).         (* ValueError raised by rivet.py itself *)

Definition result (A : Type) : Type := (exn + A)%type.

Definition ret {A} (a : A) : result A := inr a.
Definition raise {A} (e : exn) : result A := inl e.

Definition bind {A B} (m : result A) (k : A -> result B) : result B :=
  match m with
  | inl e => inl e
  | inr a => k a
  end.

Declare Scope result_scope.
Delimit Scope result_scope with result.
Bind Scope result_scope with result.
Open Scope result_scope.

Notation "x <- m ;; k" := (bind m (fun x => k))
  (at level 61, m at next level, right associativity) : result_scope.
Notation "' pat <- m ;; k" := (bind m (fun x => match x with pat => k end))
  (at level 61, pat pattern, m at next level, right associativity) : result_scope.

(** [map f l] for an [f] that may raise: stops at the first exception. *)
Fixpoint mapM {A B} (f : A -> result B) (l : list A) : result (list B) :=
  match l with
  | [] => ret []
  | a :: r => b <- f a ;; bs <- mapM f r ;; ret (b :: bs)
  end.

(** ** Sequences of characters: what [bytes] and [str] share *)

Section Sequences.
Variable A : Type.
Variable eqb : A -> A -> bool.

(** [s.split(sep)] for a one-character separator: every occurrence splits,
    and there is always at least one piece. *)
Fixpoint split_on (sep : A) (s : list A) : list (list A) :=
  match s with
  | [] => [[]]
  | c :: r =>
      if eqb c sep then [] :: split_on sep r
      else match split_on sep r with
           | p :: ps => (c :: p) :: ps
           | [] => [[c]]
           end
  end.

(** [s.split(sep, 1)]: at most one split, at the first occurrence. *)
Fixpoint split_first (sep : A) (s : list A) : list (list A) :=
  match s with
  | [] => [[]]
  | c :: r =>
      if eqb c sep then [[]; r]
      else match split_first sep r with
           | p :: ps => (c :: p) :: ps
           | [] => [[c]]
           end
  end.

Fixpoint seq_eqb (s t : list A) : bool :=
  match s, t with
  | [], [] => true
  | c :: s', d :: t' => eqb c d && seq_eqb s' t'
  | _, _ => false
  end.

(** [s.startswith(p)] *)
Fixpoint startswith (p s : list A) : bool :=
  match p, s with
  | [], _ => true
  | c :: p', d :: s' => eqb c d && startswith p' s'
  | _ :: _, [] => false
  end.

Variable isspace : A -> bool.

Fixpoint lstrip (s : list A) : list A :=
  match s with
  | [] => []
  | c :: r => if isspace c then lstrip r else s
  end.

Definition rstrip (s : list A) : list A := rev (lstrip (rev s)).

(** [s.strip()] *)
Definition strip (s : list A) : list A := rstrip (lstrip s).

End Sequences.

(** [a, b = pieces]: unpacking into exactly two names. *)
Definition unpack2 {A} (l : list A) : result (A * A) :=
  match l with
  | [a; b] => ret (a, b)
  | _ => raise BuiltinValueError
  end.

(** [a, b, c = pieces] *)
Definition unpack3 {A} (l : list A) : result (A * A * A) :=
  match l with
  | [a; b; c] => ret (a, b, c)
  | _ => raise BuiltinValueError
  end.

(** [l[i]] *)
Definition index {A} (l : list A) (i : nat) : result A :=
  match nth_error l i with
  | Some a => ret a
  | None => raise IndexError
  end.

(** ** bytes *)

Definition bytes : Type := list ascii.

(** A bytes literal. *)
Definition bt (s : string) : bytes := list_ascii_of_string s.

Definition byte_eqb (c d : ascii) : bool := Ascii.eqb c d.

(** The six characters [bytes.strip()], [float()] and [int()] treat as
    whitespace: space, \t, \n, \v, \f, \r. *)
Definition byte_isspace (c : ascii) : bool :=
  let n := N_of_ascii c in
  (n =? 32)%N || ((9 <=? n)%N && (n <=? 13)%N).

Definition bytes_strip : bytes -> bytes := strip byte_isspace.
Definition bytes_split (sep : ascii) : bytes -> list bytes := split_on byte_eqb sep.

(** ** str *)

Definition str : Type := list N.

(** A str literal (ASCII text only). *)
Definition u (s : string) : str := map N_of_ascii (list_ascii_of_string s).

Definition LF : N := 10%N.

(** [str.isspace] for one code point. *)
Definition str_isspace (c : N) : bool :=
  ((9 <=? c) && (c <=? 13) || (28 <=? c) && (c <=? 32) || (c =? 133) || (c =? 160)
   || (c =? 5760) || (8192 <=? c) && (c <=? 8202) || (c =? 8232) || (c =? 8233)
   || (c =? 8239) || (c =? 8287) || (c =? 12288))%N.

Definition str_strip : str -> str := strip str_isspace.
Definition str_split (sep : N) : str -> list str := split_on N.eqb sep.
Definition str_startswith : str -> str -> bool := startswith N.eqb.
Definition str_eqb : str -> str -> bool := seq_eqb N.eqb.

(** [str(n)] and ["%d" % n] for a natural number. *)
Definition str_of_nat (n : nat) : str := u (NilEmpty.string_of_uint (Nat.to_uint n)).

(** [str(line, 'utf-8')]: strict decoding; overlong forms, surrogates and
    code points above U+10FFFF raise. *)
Definition cont (c : ascii) : option N :=
  let n := N_of_ascii c in
  if ((128 <=? n) && (n <=? 191))%N then Some (n - 128)%N else None.

Definition in_range (lo hi : N) (c : ascii) : bool :=
  ((lo <=? N_of_ascii c) && (N_of_ascii c <=? hi))%N.

Fixpoint decode_utf8 (l : bytes) : result str :=
  match l with
  | [] => ret []
  | b0 :: r =>
      let n0 := N_of_ascii b0 in
      if (n0 <? 128)%N then s <- decode_utf8 r ;; ret (n0 :: s)
      else if in_range 194 223 b0 then
        match r with
        | b1 :: r1 =>
            match cont b1 with
            | Some c1 => s <- decode_utf8 r1 ;; ret (((n0 - 192) * 64 + c1)%N :: s)
            | None => raise UnicodeDecodeError
            end
        | _ => raise UnicodeDecodeError
        end
      else if in_range 224 239 b0 then
        match r with
        | b1 :: b2 :: r2 =>
            let lo1 := if (n0 =? 224)%N then 160%N else 128%N in
            let hi1 := if (n0 =? 237)%N then 159%N else 191%N in
            match cont b1, cont b2 with
            | Some c1, Some c2 =>
                if in_range lo1 hi1 b1 then
                  s <- decode_utf8 r2 ;;
                  ret ((((n0 - 224) * 64 + c1) * 64 + c2)%N :: s)
                else raise UnicodeDecodeError
            | _, _ => raise UnicodeDecodeError
            end
        | _ => raise UnicodeDecodeError
        end
      else if in_range 240 244 b0 then
        match r with
        | b1 :: b2 :: b3 :: r3 =>
            let lo1 := if (n0 =? 240)%N then 144%N else 128%N in
            let hi1 := if (n0 =? 244)%N then 143%N else 191%N in
            match cont b1, cont b2, cont b3 with
            | Some c1, Some c2, Some c3 =>
                if in_range lo1 hi1 b1 then
                  s <- decode_utf8 r3 ;;
                  ret (((((n0 - 240) * 64 + c1) * 64 + c2) * 64 + c3)%N :: s)
                else raise UnicodeDecodeError
            | _, _, _ => raise UnicodeDecodeError
            end
        | _ => raise UnicodeDecodeError
        end
      else raise UnicodeDecodeError
  end.

(** ** Numbers: the builtins [float], [int], [fractions.Fraction] and ['{:f}'] *)

Definition is_digit (c : ascii) : bool := in_range 48 57 c.
Definition digit_val (c : ascii) : Z := Z.of_N (N_of_ascii c) - 48.

(** Digit separators: an underscore is accepted, and dropped, only between
    two digits. *)
Fixpoint drop_underscores (after_digit : bool) (s : bytes) : result bytes :=
  match s with
  | [] => ret []
  | c :: r =>
      if byte_eqb c "_" then
        match r with
        | d :: _ =>
            if after_digit && is_digit d then drop_underscores false r
            else raise BuiltinValueError
        | [] => raise BuiltinValueError
        end
      else t <- drop_underscores (is_digit c) r ;; ret (c :: t)
  end.

(** Reads the longest run of decimal digits: the value accumulated onto
    [acc], the number of digits read onto [n], and what follows. *)
Fixpoint scan_digits (acc : Z) (n : nat) (s : bytes) : Z * nat * bytes :=
  match s with
  | c :: r =>
      if is_digit c then scan_digits (acc * 10 + digit_val c) (S n) r
      else (acc, n, s)
  | [] => (acc, n, [])
  end.

Definition scan_sign (s : bytes) : bool * bytes :=
  match s with
  | c :: r =>
      if byte_eqb c "-" then (true, r)
      else if byte_eqb c "+" then (false, r)
      else (false, s)
  | [] => (false, [])
  end.

Definition signed (neg : bool) (z : Z) : Z := if neg then (- z)%Z else z.

(** An optional exponent part [e[+-]ddd]. *)
Definition scan_exponent (s : bytes) : result (Z * bytes) :=
  match s with
  | c :: r =>
      if byte_eqb c "e" || byte_eqb c "E" then
        let '(neg, r1) := scan_sign r in
        let '(v, n, r2) := scan_digits 0 0 r1 in
        if (n =? 0)%nat then raise BuiltinValueError else ret (signed neg v, r2)
      else ret (0%Z, s)
  | [] => ret (0%Z, [])
  end.

(** The digits, fraction and exponent of a decimal literal, already stripped:
    the rational [m * 10^e] it denotes. *)
Definition decimal_literal (s : bytes) : result Q :=
  let '(neg, t1) := scan_sign s in
  let '(m1, n1, t2) := scan_digits 0 0 t1 in
  let '(m, n2, t3) :=
    match t2 with
    | c :: r => if byte_eqb c "." then scan_digits m1 0 r else (m1, 0%nat, t2)
    | [] => (m1, 0%nat, t2)
    end in
  if (n1 + n2 =? 0)%nat then raise BuiltinValueError
  else
    '(e, t4) <- scan_exponent t3 ;;
    match t4 with
    | [] => ret (Qred (inject_Z (signed neg m) * Qpower 10 (e - Z.of_nat n2))%Q)
    | _ :: _ => raise BuiltinValueError
    end.

(** A Python float is an IEEE 754 binary64 value: a signed zero, an infinity,
    NaN, or a finite number [m * 2^e] with its sign. *)
Definition float : Type := spec_float.

Definition prec : Z := 53.
Definition emax : Z := 1024.

(** The float nearest to the rational [n / d] taken with the given sign, ties
    to even: the correctly rounded quotient of [n] by [d].  Beyond the range
    of the floats it is an infinity, and a zero when it is too small. *)
Definition round_float (negative : bool) (magnitude : Q) : float :=
  match Qnum magnitude with
  | Zpos n =>
      SFdiv prec emax (S754_finite negative n 0)
            (S754_finite false (Qden magnitude) 0)
  | _ => S754_zero negative
  end.

(** A number held by a parsed value: an int or a float. *)
Inductive number : Type :=
| Int (z : Z)
| Float (f : float).

(** ASCII lower case. *)
Definition lower (c : ascii) : ascii :=
  if in_range 65 90 c then ascii_of_N (N_of_ascii c + 32) else c.

(** [s] is the word [w], in any mix of upper and lower case. *)
Definition is_word (w : string) (s : bytes) : bool :=
  seq_eqb byte_eqb (map lower s) (list_ascii_of_string w).

(** [float(x)] for [x : bytes]: after an optional sign, one of the words
    [inf], [infinity] and [nan] in any case, or else a decimal literal, which
    is rounded to the nearest float. *)
Definition py_float (s : bytes) : result float :=
  t <- drop_underscores false s ;;
  let t := bytes_strip t in
  let '(negative, word) := scan_sign t in
  if is_word "inf" word || is_word "infinity" word then ret (S754_infinity negative)
  else if is_word "nan" word then ret S754_nan
  else q <- decimal_literal t ;; ret (round_float negative (Qabs q)).

(** [int(x)] for [x : bytes], base 10. *)
Definition py_int (s : bytes) : result Z :=
  t <- drop_underscores false s ;;
  let '(neg, t1) := scan_sign (bytes_strip t) in
  let '(v, n, t2) := scan_digits 0 0 t1 in
  if (n =? 0)%nat then raise BuiltinValueError
  else match t2 with
       | [] => ret (signed neg v)
       | _ :: _ => raise BuiltinValueError
       end.

(** The code point of the digit zero of each run of ten decimal digits
    beyond ASCII (Arabic-Indic, Devanagari, fullwidth and so on), as of
    Unicode 14.0, the version of CPython 3.11. *)
Definition decimal_zeros : list N :=
  [1632; 1776; 1984; 2406; 2534; 2662; 2790; 2918; 3046; 3174; 3302; 3430;
   3558; 3664; 3792; 3872; 4160; 4240; 6112; 6160; 6470; 6608; 6784; 6800;
   6992; 7088; 7232; 7248; 42528; 43216; 43264; 43472; 43504; 43600; 44016;
   65296; 66720; 68912; 69734; 69872; 69942; 70096; 70384; 70736; 70864;
   71248; 71360; 71472; 71904; 72016; 72784; 73040; 73120; 92768; 92864;
   93008; 120782; 120792; 120802; 120812; 120822; 123200; 123632; 125264;
   130032]%N.

(** The value of a non-ASCII decimal digit. *)
Definition to_decimal (c : N) : option N :=
  match find (fun z => (z <=? c) && (c <=? z + 9))%N decimal_zeros with
  | Some z => Some (c - z)%N
  | None => None
  end.

(** What [float] and [int] do to a [str] before parsing it: ASCII is kept, a
    non-ASCII whitespace character becomes a space, a non-ASCII decimal digit
    becomes the ASCII digit of its value, and any other character makes the
    text no number. *)
Fixpoint ascii_number_text (s : str) : result bytes :=
  match s with
  | [] => ret []
  | c :: r =>
      t <- ascii_number_text r ;;
      if (c <? 128)%N then ret (ascii_of_N c :: t)
      else if str_isspace c then ret (" "%char :: t)
      else match to_decimal c with
           | Some d => ret (ascii_of_N (48 + d) :: t)
           | None => raise BuiltinValueError
           end
  end.

(** [float(x)] and [int(x)] for [x : str]. *)
Definition py_float_str (s : str) : result float :=
  t <- ascii_number_text s ;; py_float t.

Definition py_int_str (s : str) : result Z :=
  t <- ascii_number_text s ;; py_int t.

Fixpoint ascii_text (s : str) : result bytes :=
  match s with
  | [] => ret []
  | c :: r =>
      t <- ascii_text r ;;
      if (c <? 128)%N then ret (ascii_of_N c :: t) else raise BuiltinValueError
  end.

(** [fractions.Fraction(x)] for [x : str]: [n], [n/d] or a decimal literal,
    reduced to lowest terms.  Digit separators, which only recent CPython
    versions accept here, and non-ASCII digits are not modelled. *)
Definition Fraction (s : str) : result Q :=
  t <- ascii_text (str_strip s) ;;
  let '(neg, t1) := scan_sign t in
  let '(num, n1, t2) := scan_digits 0 0 t1 in
  match t2 with
  | c :: r =>
      if byte_eqb c "/" then
        let '(den, nd, t3) := scan_digits 0 0 r in
        if (n1 =? 0)%nat || (nd =? 0)%nat then raise BuiltinValueError
        else match t3 with
             | [] =>
                 if (den =? 0)%Z then raise ZeroDivisionError
                 else ret (Qred (inject_Z (signed neg num) / inject_Z den)%Q)
             | _ :: _ => raise BuiltinValueError
             end
      else decimal_literal t
  | [] => decimal_literal t
  end.

(** Python's [a < b] on numbers. *)
Definition Qltb (x y : Q) : bool := (Qnum x * QDen y <? Qnum y * QDen x)%Z.

(** Python's truth value of a number. *)
Definition is_zero (x : Q) : bool := (Qnum x =? 0)%Z.

(** Rounding to the nearest integer, ties to even. *)
Definition round_half_even (x : Q) : Z :=
  let f := Qfloor x in
  match (x - inject_Z f ?= 1 # 2)%Q with
  | Lt => f
  | Gt => (f + 1)%Z
  | Eq => if Z.even f then f else (f + 1)%Z
  end.

Definition str_of_Z (z : Z) : str := u (NilZero.string_of_int (Z.to_int z)).

(** ['{:f}'.format(x)] for a finite float [x], or an int that is a float:
    sign, integer part, a point and six decimals, rounded to the nearest with
    ties to even. *)
Definition format_f (x : Q) : str :=
  let n := round_half_even (Qabs x * 1000000)%Q in
  let frac := str_of_Z (n mod 1000000) in
  (if Qltb x 0%Q then u "-" else [])
    ++ str_of_Z (n / 1000000) ++ u "."
    ++ repeat 48%N (6 - length frac) ++ frac.

(** Python's two-argument [min] and [max]: the first argument wins a tie. *)
Definition py_min (x y : Q) : Q := if Qltb y x then y else x.
Definition py_max (x y : Q) : Q := if Qltb x y then y else x.

(** ** Text streams *)

(** The stream a [save] method writes to: the strings written so far, in
    order.  A method that writes and may raise maps a stream to the stream it
    leaves behind and to its outcome. *)
Definition stream : Type := list str.

Definition io (A : Type) : Type := stream -> stream * result A.

Definition io_ret {A} (a : A) : io A := fun out => (out, ret a).

Definition io_bind {A B} (m : io A) (k : A -> io B) : io B :=
  fun out =>
    match m out with
    | (out', inr a) => k a out'
    | (out', inl e) => (out', inl e)
    end.

(** A computation that may raise but writes nothing. *)
Definition lift {A} (r : result A) : io A := fun out => (out, r).

Declare Scope io_scope.
Delimit Scope io_scope with io.
Bind Scope io_scope with io.

Notation "x <- m ;; k" := (io_bind m (fun x => k))
  (at level 61, m at next level, right associativity) : io_scope.
Notation "m ;; k" := (io_bind m (fun _ => k))
  (at level 61, right associativity) : io_scope.

(** [out.write(s)] *)
Definition write (s : str) : io unit := fun out => (out ++ [s], ret tt).

(** [out.writelines(lines)] *)
Definition writelines (lines : list str) : io unit := fun out => (out ++ lines, ret tt).

(** [out.seek(0); out.truncate()] *)
Definition seek0_truncate : io unit := fun _ => ([], ret tt).

Definition skip : io unit := io_ret tt.

(** [for x in l: body(x)] *)
Fixpoint for_each {A} (body : A -> io unit) (l : list A) : io unit :=
  match l with
  | [] => skip
  | x :: r => (body x ;; for_each body r)%io
  end.

(** [sep.join(l)] *)
Fixpoint join (sep : str) (l : list str) : str :=
  match l with
  | [] => []
  | [s] => s
  | s :: r => s ++ sep ++ join sep r
  end.

(** [s.replace(c, t)] for a one-character [c]. *)
Definition replace_char (c : N) (t : str) (s : str) : str :=
  flat_map (fun x => if (x =? c)%N then t else [x]) s.

(** The truth value of an optional string: [None] and [''] are false. *)
Definition truthy (s : option str) : bool :=
  match s with
  | Some (_ :: _) => true
  | _ => false
  end.

(** ** Point *)

(** The [appearance] of a point: a number, or a sequence of numbers. *)
Inductive appearance_t : Type :=
| Scalar (v : Q)
| Tuple (vs : list Q).

(** ['{:f}'.format(a)]: a sequence does not support the format. *)
Definition format_appearance (a : appearance_t) : result str :=
  match a with
  | Scalar v => ret (format_f v)
  | Tuple _ => raise TypeError
  end.

Module Point.

Record t : Type := { appearance : appearance_t; coords : list Q }.

Definition __init__ (appearance : appearance_t) (coords : list Q) : t :=
  {| appearance := appearance; coords := coords |}.

Definition dimension (self : t) : nat := length (coords self).

End Point.

Definition points (tuples : list (list Q)) (appearance : appearance_t) : list Point.t :=
  map (fun tup => Point.__init__ appearance tup) tuples.

(** ** PointCloud *)

Module PointCloud.

Record t : Type := {
  second_param_name : option str;
  points : list Point.t;
  comments : option str;
  dimension : nat;
  max_dist : Q
}.

(** One iteration of the inner loop of [_calc_max_dist], on [(lo, hi)]. *)
Definition scan_coord (st : Q * Q) (coord : Q) : Q * Q :=
  let '(lo, hi) := st in
  let lo := if Qltb coord lo then coord else lo in
  let hi := if Qltb hi coord then coord else hi in
  (lo, hi).

Definition scan_point (st : Q * Q) (p : Point.t) : Q * Q :=
  fold_left scan_coord (Point.coords p) st.

(** [self._calc_max_dist()], which reads [self.points] only. *)
Definition _calc_max_dist (points : list Point.t) : Q :=
  let '(lo, hi) := fold_left scan_point points (0, 0)%Q in
  Qabs (hi - lo).

Definition dimension_message (expected i actual : nat) : str :=
  u "Expected points of dimension " ++ str_of_nat expected
    ++ u ", but point at position " ++ str_of_nat i
    ++ u " has dimension " ++ str_of_nat actual.

(** The loop [for i, p in enumerate(points)], from position [i] on. *)
Fixpoint check_dimensions (dimension i : nat) (ps : list Point.t) : result unit :=
  match ps with
  | [] => ret tt
  | p :: r =>
      if negb (Point.dimension p =? dimension)%nat then
        raise (ValueError (dimension_message dimension i (Point.dimension p)))
      else check_dimensions dimension (S i) r
  end.

Definition __init__ (points : list Point.t) (second_param_name comments : option str)
    (max_dist : option Q) : result t :=
  let name := if truthy second_param_name then second_param_name else None in
  p0 <- index points 0 ;;
  let dimension := Point.dimension p0 in
  _ <- check_dimensions dimension 0 points ;;
  let max_dist :=
    match max_dist with
    | Some d => if is_zero d then _calc_max_dist points else d
    | None => _calc_max_dist points
    end in
  ret {| second_param_name := name; points := points; comments := comments;
         dimension := dimension; max_dist := max_dist |}.

(** The body of [for p in self.points] in [save]. *)
Definition save_point (name : option str) (p : Point.t) : io unit :=
  (for_each (fun c => write (format_f c) ;; write (u " ")) (Point.coords p) ;;
   match name with
   | Some _ => s <- lift (format_appearance (Point.appearance p)) ;; write (s ++ u " ")
   | None => skip
   end ;;
   write [LF])%io.

Definition save (self : t) : io unit :=
  ((if truthy (comments self) then
      writelines (map (fun line => u "# " ++ line ++ [LF])
                      (str_split LF (match comments self with Some c => c | None => [] end)))
    else skip) ;;
   write (u "points" ++ [LF]) ;;
   write (str_of_nat (dimension self) ++ [LF]) ;;
   write (format_f (max_dist self) ++ [LF]) ;;
   match second_param_name self with
   | Some name => write (name ++ [LF])
   | None => write (u "no function" ++ [LF])
   end ;;
   for_each (save_point (second_param_name self)) (points self) ;;
   write [LF])%io.

End PointCloud.

(** ** Bifiltration *)

Module Bifiltration.

Record t : Type := { x_label : str; y_label : str; points : list Point.t }.

(** [hasattr(a, '__len__') and len(a) == 2] *)
Definition is_pair (a : appearance_t) : bool :=
  match a with
  | Scalar _ => false
  | Tuple vs => (length vs =? 2)%nat
  end.

Definition __init__ (x_label y_label : str) (points : list Point.t) : result t :=
  if forallb (fun p => is_pair (Point.appearance p)) points then
    ret {| x_label := x_label; y_label := y_label; points := points |}
  else
    raise (ValueError
      (u "For a bifiltration, points must have a 2-tuple in the appearance field")).

(** The values [for b in a] goes through: a number is not iterable. *)
Definition iterate (a : appearance_t) : result (list Q) :=
  match a with
  | Tuple vs => ret vs
  | Scalar _ => raise TypeError
  end.

(** The body of [for p in self.points] in [save]. *)
Definition save_point (p : Point.t) : io unit :=
  (for_each (fun c => write (format_f c ++ u " ") ;; write (u " ")) (Point.coords p) ;;
   vs <- lift (iterate (Point.appearance p)) ;;
   for_each (fun v => write (format_f v ++ u " ") ;; write (u " ")) vs ;;
   write [LF])%io.

Definition save (self : t) : io unit :=
  (write (u "bifiltration" ++ [LF]) ;;
   write (x_label self ++ [LF]) ;;
   write (y_label self ++ [LF]) ;;
   for_each save_point (points self) ;;
   write [LF])%io.

End Bifiltration.

(** ** MetricSpace *)

(** [max] applied to an unpacked list: no argument, or a single number (which is not iterable),
    is a type error; otherwise the first greatest argument. *)
Definition max_star (args : list Q) : result Q :=
  match args with
  | [] => raise TypeError
  | [_] => raise TypeError
  | x :: r => ret (fold_left py_max r x)
  end.

(** [m[i][j]] *)
Definition entry (m : list (list Q)) (i j : nat) : result Q :=
  row <- index m i ;; index row j.

Module MetricSpace.

Record t : Type := {
  comment : option str;
  appearance_label : str;
  distance_label : str;
  appearance_values : option (list Q);
  distance_matrix : list (list Q)
}.

Definition __init__ (appearance_label distance_label : str)
    (appearance_values : option (list Q)) (distance_matrix : list (list Q))
    (comment : option str) : t :=
  {| comment := comment; appearance_label := appearance_label;
     distance_label := distance_label; appearance_values := appearance_values;
     distance_matrix := distance_matrix |}.

(** [[m[i][j] for i in range(dim) for j in range(dim)]] *)
Definition all_entries (m : list (list Q)) (dim : nat) : result (list Q) :=
  mapM (fun ij => entry m (fst ij) (snd ij))
       (flat_map (fun i => map (fun j => (i, j)) (seq 0 dim)) (seq 0 dim)).

(** The body of [for row in range(dim)] in [save]. *)
Definition save_row (m : list (list Q)) (dim row : nat) : io unit :=
  (for_each (fun col => x <- lift (entry m row col) ;; write (format_f x ++ u " "))
            (seq (row + 1) (dim - (row + 1))) ;;
   write [LF])%io.

(** The first part of [save]: everything up to and including the line of
    the distance label. *)
Definition save_preamble (self : t) : io unit :=
  (seek0_truncate ;;
   write (u "metric" ++ [LF]) ;;
   (if truthy (comment self) then
      write (u "#") ;;
      write (replace_char LF (LF :: u "#")
               (match comment self with Some c => c | None => [] end)) ;;
      write [LF]
    else skip) ;;
   match appearance_values self with
   | Some vs =>
       write (appearance_label self ++ [LF]) ;;
       write (join (u " ") (map (fun s => format_f s ++ u " ") vs) ++ [LF])
   | None =>
       write (u "no function" ++ [LF]) ;;
       write (str_of_nat (length (distance_matrix self)) ++ [LF])
   end ;;
   write (distance_label self ++ [LF]))%io.

Definition save (self : t) : io unit :=
  (save_preamble self ;;
   let dim := length (distance_matrix self) in
   entries <- lift (all_entries (distance_matrix self) dim) ;;
   max_dist <- lift (max_star entries) ;;
   write (format_f max_dist ++ [LF]) ;;
   for_each (save_row (distance_matrix self) dim) (seq 0 dim))%io.

End MetricSpace.

(** ** Bounds *)

Module Bounds.

(** The corners are sequences of numbers; [A] is the type that models the
    numbers. *)
Record t (A : Type) : Type := { lower_left : list A; upper_right : list A }.

Definition __init__ {A} (lower_left upper_right : list A) : t A :=
  {| lower_left := lower_left; upper_right := upper_right |}.

Definition common_bounds (self other : t Q) : result (t Q) :=
  a0 <- index (lower_left self) 0 ;;
  b0 <- index (lower_left other) 0 ;;
  a1 <- index (lower_left self) 1 ;;
  b1 <- index (lower_left other) 1 ;;
  let lower_left := [py_min a0 b0; py_min a1 b1] in
  c0 <- index (upper_right self) 0 ;;
  d0 <- index (upper_right other) 0 ;;
  c1 <- index (upper_right self) 1 ;;
  d1 <- index (upper_right other) 1 ;;
  let upper_right := [py_max c0 d0; py_max c1 d1] in
  ret (__init__ lower_left upper_right).

End Bounds.

(** [for x in l: st = body(st, x)] for a body that may raise. *)
Fixpoint foldM {S A} (body : S -> A -> result S) (l : list A) (st : S) : result S :=
  match l with
  | [] => ret st
  | x :: r => st' <- body st x ;; foldM body r st'
  end.

Definition COMMA : N := 44%N.

(** [tuple(map(float, s.split(",")))] *)
Definition float_tuple (s : str) : result (list number) :=
  mapM (fun part => f <- py_float_str part ;; ret (Float f)) (str_split COMMA s).

(** The body of the loop of [parse_bounds], on [(low, high)]. *)
Definition parse_bounds_line (st : list number * list number) (line : bytes)
    : result (list number * list number) :=
  let '(low, high) := st in
  line <- decode_utf8 line ;;
  let line := str_strip line in
  low <- (if str_startswith (u "low:") line then float_tuple (skipn 5 line)
          else ret low) ;;
  high <- (if str_startswith (u "high:") line then float_tuple (skipn 6 line)
           else ret high) ;;
  ret (low, high).

Definition parse_bounds (lines : list bytes) : result (Bounds.t number) :=
  '(low, high) <- foldM parse_bounds_line lines ([Int 0; Int 0], [Int 0; Int 0]) ;;
  ret (Bounds.__init__ low high).

(** ** Dimensions and MultiBetti *)

Module Dimensions.

Record t : Type := { x_grades : list Q; y_grades : list Q }.

Definition __init__ (x_grades y_grades : list Q) : t :=
  {| x_grades := x_grades; y_grades := y_grades |}.

(** [self == other], for [other] a Dimensions: list equality, element by
    element with the numbers' [==]. *)
Definition __eq__ (self other : t) : bool :=
  seq_eqb Qeq_bool (x_grades self) (x_grades other)
  && seq_eqb Qeq_bool (y_grades self) (y_grades other).

End Dimensions.

Module MultiBetti.

Record t : Type := {
  dimensions : Dimensions.t;
  xi_0 : list (list Z);
  xi_1 : list (list Z);
  xi_2 : list (list Z)
}.

Definition __init__ (dims : Dimensions.t) (xi_0 xi_1 xi_2 : list (list Z)) : t :=
  {| dimensions := dims; xi_0 := xi_0; xi_1 := xi_1; xi_2 := xi_2 |}.

End MultiBetti.

(** ** The Betti parser *)

(** [current_grades] and [current_xi] are references to one of the lists the
    parser builds; an [append] through the reference changes that list. *)
Inductive grades_ref : Type := X_grades | Y_grades.
Inductive xi_ref : Type := Xi0 | Xi1 | Xi2.

Record betti_state : Type := {
  x_grades : list Q;
  y_grades : list Q;
  current_grades : option grades_ref;
  xi0 : list (list Z);
  xi1 : list (list Z);
  xi2 : list (list Z);
  current_xi : option xi_ref
}.

Definition betti_init : betti_state :=
  {| x_grades := []; y_grades := []; current_grades := None;
     xi0 := []; xi1 := []; xi2 := []; current_xi := None |}.

Definition set_current_grades (g : option grades_ref) (st : betti_state) : betti_state :=
  {| x_grades := x_grades st; y_grades := y_grades st; current_grades := g;
     xi0 := xi0 st; xi1 := xi1 st; xi2 := xi2 st; current_xi := current_xi st |}.

Definition set_current_xi (r : option xi_ref) (st : betti_state) : betti_state :=
  {| x_grades := x_grades st; y_grades := y_grades st;
     current_grades := current_grades st;
     xi0 := xi0 st; xi1 := xi1 st; xi2 := xi2 st; current_xi := r |}.

(** [current_grades.append(q)] *)
Definition append_grade (g : grades_ref) (q : Q) (st : betti_state) : betti_state :=
  {| x_grades := match g with X_grades => x_grades st ++ [q] | Y_grades => x_grades st end;
     y_grades := match g with Y_grades => y_grades st ++ [q] | X_grades => y_grades st end;
     current_grades := current_grades st;
     xi0 := xi0 st; xi1 := xi1 st; xi2 := xi2 st; current_xi := current_xi st |}.

(** [current_xi.append(tup)] *)
Definition append_xi (r : xi_ref) (tup : list Z) (st : betti_state) : betti_state :=
  {| x_grades := x_grades st; y_grades := y_grades st;
     current_grades := current_grades st;
     xi0 := match r with Xi0 => xi0 st ++ [tup] | _ => xi0 st end;
     xi1 := match r with Xi1 => xi1 st ++ [tup] | _ => xi1 st end;
     xi2 := match r with Xi2 => xi2 st ++ [tup] | _ => xi2 st end;
     current_xi := current_xi st |}.

(** [xi[k]] for the three-element list [xi]. *)
Definition xi_index (k : Z) : result xi_ref :=
  match k with
  | 0%Z | (-3)%Z => ret Xi0
  | 1%Z | (-2)%Z => ret Xi1
  | 2%Z | (-1)%Z => ret Xi2
  | _ => raise IndexError
  end.

(** The body of the loop of [_parse_betti]. *)
Definition parse_betti_line (st : betti_state) (line : bytes) : result betti_state :=
  let line := bytes_strip line in
  line <- (if (length line =? 0)%nat then ret None
           else s <- decode_utf8 line ;; ret (Some s)) ;;
  match line with
  | None => ret (set_current_xi None (set_current_grades None st))
  | Some line =>
      if str_eqb line (u "x-grades") then ret (set_current_grades (Some X_grades) st)
      else if str_eqb line (u "y-grades") then ret (set_current_grades (Some Y_grades) st)
      else
        match current_grades st with
        | Some g => q <- Fraction line ;; ret (append_grade g q st)
        | None =>
            if str_startswith (u "xi_") line then
              c <- index line 3 ;;
              k <- py_int_str [c] ;;
              r <- xi_index k ;;
              ret (set_current_xi (Some r) st)
            else
              match current_xi st with
              | Some r =>
                  tup <- mapM py_int_str (str_split COMMA (removelast (tl line))) ;;
                  ret (append_xi r tup st)
              | None => ret st
              end
        end
  end.

Definition _parse_betti (text : list bytes) : result MultiBetti.t :=
  st <- foldM parse_betti_line text betti_init ;;
  ret (MultiBetti.__init__ (Dimensions.__init__ (x_grades st) (y_grades st))
         (xi0 st) (xi1 st) (xi2 st)).

(** ** The barcode slice parser *)

(** Modelled from the spec: the module [barcode] that rivet.py imports, of
    which only the constructors [Bar] and [Barcode] are used here.  A Bar has a
    birth, a death and a multiplicity; a Barcode is an ordered collection of
    Bars. *)
Module barcode.

Record Bar : Type := { birth : float; death : float; multiplicity : Z }.

Record Barcode : Type := { bars : list Bar }.

End barcode.

(** [barcode.Bar(float(birth), float(death), int(mult[1:]))] for one token. *)
Definition parse_bar (part : bytes) : result barcode.Bar :=
  '(birth, death, mult) <- unpack3 (bytes_split " " part) ;;
  b <- py_float birth ;;
  d <- py_float death ;;
  m <- py_int (skipn 1 mult) ;;
  ret {| barcode.birth := b; barcode.death := d; barcode.multiplicity := m |}.

(** The loop [for part in body.split(b',')]. *)
Definition parse_bars_step (bars : list barcode.Bar) (part : bytes)
    : result (list barcode.Bar) :=
  let part := bytes_strip part in
  match part with
  | [] => ret bars
  | _ :: _ => bar <- parse_bar part ;; ret (bars ++ [bar])
  end.

Definition slice : Type := ((float * float) * barcode.Barcode)%type.

(** The body of the loop of [_parse_slices], on the list [slices]. *)
Definition parse_slices_line (slices : list slice) (line : bytes) : result (list slice) :=
  let line := bytes_strip line in
  match line with
  | [] => ret slices
  | _ :: _ =>
      '(header, body) <- unpack2 (bytes_split ":" line) ;;
      '(angle, offset) <- unpack2 (bytes_split " " header) ;;
      bars <- foldM parse_bars_step (bytes_split "," body) [] ;;
      let code := {| barcode.bars := bars |} in
      a <- py_float angle ;;
      o <- py_float offset ;;
      ret (slices ++ [((a, o), code)])
  end.

Definition _parse_slices (text : list bytes) : result (list slice) :=
  foldM parse_slices_line text [].

(** ** The specification's reading of the slice parser

    Section 4.6 of the specification describes the parser with a single split
    at the first colon and a single split at the first space of the header.
    [_parse_slices_spec] follows those words; it is compared with
    [_parse_slices] below. *)

Definition parse_slices_line_spec (slices : list slice) (line : bytes)
    : result (list slice) :=
  let line := bytes_strip line in
  match line with
  | [] => ret slices
  | _ :: _ =>
      '(header, body) <- unpack2 (split_first byte_eqb ":"%char line) ;;
      '(angle, offset) <- unpack2 (split_first byte_eqb " "%char header) ;;
      bars <- foldM parse_bars_step (bytes_split "," body) [] ;;
      let code := {| barcode.bars := bars |} in
      a <- py_float angle ;;
      o <- py_float offset ;;
      ret (slices ++ [((a, o), code)])
  end.

Definition _parse_slices_spec (text : list bytes) : result (list slice) :=
  foldM parse_slices_line_spec text [].

(** ** What the encoders are expected to write *)

(** The tokens of the coordinates of a point in a point-cloud file. *)
Definition coord_tokens (p : Point.t) : list str :=
  flat_map (fun c => [format_f c; u " "]) (Point.coords p).

(** The token of the appearance value of a point, when it is a number. *)
Definition appearance_tokens (p : Point.t) : list str :=
  match Point.appearance p with
  | Scalar v => [format_f v ++ u " "]
  | Tuple _ => []
  end.

(** The line of a point, with or without its appearance value. *)
Definition point_line (with_appearance : bool) (p : Point.t) : list str :=
  coord_tokens p ++ (if with_appearance then appearance_tokens p else []) ++ [[LF]].

(** The comment lines at the head of a point-cloud file. *)
Definition comment_lines (comments : option str) : list str :=
  match comments with
  | Some (c :: r) => map (fun line => u "# " ++ line ++ [LF]) (str_split LF (c :: r))
  | _ => []
  end.

(** The comment block of a metric-space file. *)
Definition comment_block (comment : option str) : list str :=
  match comment with
  | Some (c :: r) => [u "#"; replace_char LF (LF :: u "#") (c :: r); [LF]]
  | _ => []
  end.

(** Row [r] of the upper triangle of [m]: the entries in columns [r+1] to
    [n-1], one token each, and the end of the line. *)
Definition row_tokens (m : list (list Q)) (n r : nat) : list str :=
  map (fun c => format_f (nth c (nth r m []) 0%Q) ++ u " ") (seq (r + 1) (n - (r + 1)))
    ++ [[LF]].

(** An [n] by [n] matrix. *)
Definition square (m : list (list Q)) : Prop :=
  forall row, In row m -> length row = length m.

(** Equality of corners and of Bounds, coordinate by coordinate with the
    numbers' [==]. *)
Definition corner_eq (c d : list Q) : Prop := Forall2 Qeq c d.

Definition bounds_eq (x y : Bounds.t Q) : Prop :=
  corner_eq (Bounds.lower_left x) (Bounds.lower_left y)
  /\ corner_eq (Bounds.upper_right x) (Bounds.upper_right y).

(** A line is blank when stripping leaves nothing. *)
Definition blank (line : bytes) : bool :=
  match bytes_strip line with
  | [] => true
  | _ :: _ => false
  end.

(** What [MetricSpace.save] writes before the line of the maximum. *)
Definition preamble (self : MetricSpace.t) : list str :=
  [u "metric" ++ [LF]]
    ++ comment_block (MetricSpace.comment self)
    ++ match MetricSpace.appearance_values self with
       | Some vs =>
           [MetricSpace.appearance_label self ++ [LF];
            join (u " ") (map (fun s => format_f s ++ u " ") vs) ++ [LF]]
       | None =>
           [u "no function" ++ [LF];
            str_of_nat (length (MetricSpace.distance_matrix self)) ++ [LF]]
       end
    ++ [MetricSpace.distance_label self ++ [LF]].

(** [lo] and [hi] are the least and the greatest of the numbers [seen]. *)
Definition extremes (seen : list Q) (lo hi : Q) : Prop :=
  In lo seen /\ In hi seen /\ forall c, In c seen -> (lo <= c /\ c <= hi)%Q.

(** ** Sample data *)

Definition cloud0 : list Point.t := points [[1; 2]; [3; -4]]%Q (Scalar 0).

Definition metric3 : MetricSpace.t :=
  MetricSpace.__init__ (u "birth") (u "distance") None
    [[0; 1; 2]; [0; 0; 3]; [0; 0; 0]]%Q None.

Definition metric1 : MetricSpace.t :=
  MetricSpace.__init__ (u "birth") (u "distance") None [[5%Q]] None.

Definition betti_text : list bytes :=
  map bt ["x-grades"; "1/2"; "1"; ""; "y-grades"; "1"; "2"; ""; "xi_0"; "(0,0,1)"; ""]%string.

(** ** Notions used in the statements *)

(** The entry [m[i][j]] of a matrix, as a total function. *)
Definition at_ (m : list (list Q)) (i j : nat) : Q := nth j (nth i m []) 0%Q.

(** All pairs [(i, j)] with [i, j < n], row by row. *)
Definition index_pairs (n : nat) : list (nat * nat) :=
  flat_map (fun i => map (fun j => (i, j)) (seq 0 n)) (seq 0 n).

(** A Bounds whose corners have two coordinates each. *)
Definition rectangle (x : Bounds.t Q) : Prop :=
  length (Bounds.lower_left x) = 2%nat /\ length (Bounds.upper_right x) = 2%nat.

(** Coordinate [i] of a corner. *)
Definition coord (c : list Q) (i : nat) : Q := nth i c 0%Q.

(** The number of occurrences of a character in a bytes value. *)
Definition occurrences (c : ascii) (s : bytes) : nat :=
  length (filter (fun d => byte_eqb d c) s).

(** The part of a line before its first colon. *)
Definition header_of (line : bytes) : bytes := hd [] (bytes_split ":" line).

(** The slice of one non-blank, stripped line: what [parse_slices_line]
    appends. *)
Definition slice_of (line : bytes) : result slice :=
  '(header, body) <- unpack2 (bytes_split ":" line) ;;
  '(angle, offset) <- unpack2 (bytes_split " " header) ;;
  bars <- foldM parse_bars_step (bytes_split "," body) [] ;;
  a <- py_float angle ;;
  o <- py_float offset ;;
  ret ((a, o), {| barcode.bars := bars |}).

(** The float nearest to a rational: the float that a literal of this value
    denotes. *)
Definition float_of_Q (x : Q) : float := round_float (Qltb x 0) (Qabs x).

(** [hi] is the greatest, and [lo] the least, of the numbers [seen]. *)
Definition greatest (seen : list Q) (hi : Q) : Prop :=
  In hi seen /\ forall c, In c seen -> (c <= hi)%Q.

Definition least (seen : list Q) (lo : Q) : Prop :=
  In lo seen /\ forall c, In c seen -> (lo <= c)%Q.

(** The span as section 3 of the specification words it: the greatest
    coordinate minus the least, where the lower bound, and only the lower
    bound, starts at 0. *)
Definition span_from_lower_bound_zero (pts : list Point.t) (d : Q) : Prop :=
  exists lo hi,
    greatest (flat_map Point.coords pts) hi
    /\ least (0%Q :: flat_map Point.coords pts) lo
    /\ (d == hi - lo)%Q.

(** A point cloud without any positive coordinate. *)
Definition cloud_negative : list Point.t := points [[-1]; [-3]]%Q (Scalar 0).

(** What one line of the bounds text says: a lower-left corner, an
    upper-right corner, or nothing. *)
Inductive bounds_line : Type :=
| Low (corner : list number)
| High (corner : list number)
| Other.

(** The reading of one line: decoded and stripped, a line that starts with
    "low:" gives the floats after its 5th character, a line that starts with
    "high:" those after its 6th character. *)
Definition read_bounds_line (line : bytes) : result bounds_line :=
  s <- decode_utf8 line ;;
  let s := str_strip s in
  if str_startswith (u "low:") s then
    corner <- float_tuple (skipn 5 s) ;; ret (Low corner)
  else if str_startswith (u "high:") s then
    corner <- float_tuple (skipn 6 s) ;; ret (High corner)
  else ret Other.

(** The corner of the last "low:" line, or [default] when there is none. *)
Fixpoint last_low (default : list number) (ls : list bounds_line) : list number :=
  match ls with
  | [] => default
  | Low corner :: r => last_low corner r
  | _ :: r => last_low default r
  end.

(** The corner of the last "high:" line, or [default] when there is none. *)
Fixpoint last_high (default : list number) (ls : list bounds_line) : list number :=
  match ls with
  | [] => default
  | High corner :: r => last_high corner r
  | _ :: r => last_high default r
  end.

(** The corner (0, 0) the bounds parser starts from. *)
Definition origin : list number := [Int 0; Int 0].

(** A stripped line has the shape of a slice: one colon, and one space in
    the part before it. *)
Definition slice_shaped (line : bytes) : bool :=
  (occurrences ":" line =? 1)%nat && (occurrences " " (header_of line) =? 1)%nat.

(** ** Notions used in the further statements *)

(** All coordinates of all points, in order. *)
Definition all_coords (pts : list Point.t) : list Q := flat_map Point.coords pts.

(** An action that only adds to the stream: what was written before stays,
    and what is added, and the outcome, do not depend on it. *)
Definition appends {A} (m : io A) : Prop :=
  forall out, m out = (out ++ fst (m []), snd (m [])).

(** The appearance of a point is a number. *)
Definition scalar (p : Point.t) : Prop := exists v, Point.appearance p = Scalar v.

(** The tokens of a sequence of numbers in a bifiltration file. *)
Definition spaced_tokens (vs : list Q) : list str :=
  flat_map (fun v => [format_f v ++ u " "; u " "]) vs.

(** The line of a point in a bifiltration file. *)
Definition bifiltration_line (p : Point.t) : list str :=
  spaced_tokens (Point.coords p)
    ++ spaced_tokens (match Point.appearance p with Tuple vs => vs | Scalar _ => [] end)
    ++ [[LF]].

(** Every row of the matrix has at least as many entries as there are rows. *)
Definition wide (m : list (list Q)) : Prop :=
  forall row, In row m -> (length m <= length row)%nat.

(** A point cloud with a name whose second point has a sequence as
    appearance. *)
Definition cloud_mixed : PointCloud.t :=
  {| PointCloud.second_param_name := Some (u "birth");
     PointCloud.points := points [[1]]%Q (Scalar 0) ++ points [[2]]%Q (Tuple [0; 0]);
     PointCloud.comments := None; PointCloud.dimension := 1;
     PointCloud.max_dist := 2 |}.

(** A matrix whose second row is too short. *)
Definition metric_ragged : MetricSpace.t :=
  MetricSpace.__init__ (u "birth") (u "distance") None [[0; 1]; [0]]%Q None.

(** [outer] contains [inner]: its lower-left corner is below and to the left,
    its upper-right corner above and to the right (first two coordinates). *)
Definition encloses (outer inner : Bounds.t Q) : Prop :=
  (coord (Bounds.lower_left outer) 0 <= coord (Bounds.lower_left inner) 0
   /\ coord (Bounds.lower_left outer) 1 <= coord (Bounds.lower_left inner) 1
   /\ coord (Bounds.upper_right inner) 0 <= coord (Bounds.upper_right outer) 0
   /\ coord (Bounds.upper_right inner) 1 <= coord (Bounds.upper_right outer) 1)%Q.

(** Both corners have at least two coordinates. *)
Definition indexable (x : Bounds.t Q) : Prop :=
  (2 <= length (Bounds.lower_left x))%nat /\ (2 <= length (Bounds.upper_right x))%nat.

Definition unit_square : Bounds.t Q := Bounds.__init__ [0; 0] [1; 1].
Definition shifted_square : Bounds.t Q := Bounds.__init__ [1 # 2; -1] [2; 1 # 2].

(** The lines that are not blank. *)
Definition nonblank_lines (text : list bytes) : list bytes :=
  filter (fun line => negb (blank line)) text.

(** A line that is blank or that, stripped and decoded, is neither a grades
    header nor an xi header. *)
Definition headerless (line : bytes) : Prop :=
  blank line = true
  \/ exists s, decode_utf8 (bytes_strip line) = inr s
               /\ str_eqb s (u "x-grades") = false
               /\ str_eqb s (u "y-grades") = false
               /\ str_startswith (u "xi_") s = false.

(** The MultiBetti with no grade and no xi entry. *)
Definition empty_betti : MultiBetti.t :=
  MultiBetti.__init__ (Dimensions.__init__ [] []) [] [] [].

(** [l'] is [l] with more elements at the end. *)
Definition extends {A} (l l' : list A) : Prop := exists more, l' = l ++ more.

(** The character of the decimal digit [k]. *)
Definition digit_char (k : nat) : N := N.of_nat (48 + k).

(** A state of the Betti parser inside the x-grades section. *)
Definition in_x_grades : betti_state := set_current_grades (Some X_grades) betti_init.

(** The lists of [st'] extend those of [st]. *)
Definition grows (st st' : betti_state) : Prop :=
  extends (x_grades st) (x_grades st') /\ extends (y_grades st) (y_grades st')
  /\ extends (xi0 st) (xi0 st') /\ extends (xi1 st) (xi1 st')
  /\ extends (xi2 st) (xi2 st').

(** ** File names *)

(** [_rivet_name(base, homology, x, y)], for integer parameters. *)
Definition _rivet_name (base : str) (homology x y : Z) : str :=
  base ++ u ".H" ++ str_of_Z homology ++ u "_x" ++ str_of_Z x
       ++ u "_y" ++ str_of_Z y ++ u ".rivet".

(** The character that starts a comment line. *)
Definition HASH : N := 35%N.

(** A metric space with a comment of two lines. *)
Definition metric_commented : MetricSpace.t :=
  MetricSpace.__init__ (u "birth") (u "distance") None [[0; 1]; [0; 0]]%Q
    (Some (u "made by" ++ LF :: u "hand")).

(** * Properties *)

(** ** Numbers *)

Lemma Qltb_lt (x y : Q) : Qltb x y = true <-> (x < y)%Q.
Proof. unfold Qltb, Qlt. apply Z.ltb_lt. Qed.

Lemma Qltb_ge (x y : Q) : Qltb x y = false <-> (y <= x)%Q.
Proof. unfold Qltb, Qle. rewrite Z.ltb_ge. reflexivity. Qed.

Lemma Qltb_spec (x y : Q) : reflect (x < y)%Q (Qltb x y).
Proof.
  destruct (Qltb x y) eqn:E; constructor.
  - now apply Qltb_lt.
  - intros H. apply Qltb_lt in H. congruence.
Qed.

Lemma is_zero_eq (x : Q) : is_zero x = true <-> (x == 0)%Q.
Proof.
  unfold is_zero, Qeq. simpl. rewrite Z.eqb_eq. lia.
Qed.

Lemma py_min_Qmin (x y : Q) : (py_min x y == Qmin x y)%Q.
Proof.
  unfold py_min. destruct (Qltb_spec y x) as [H|H].
  - symmetry. apply Q.min_r. lra.
  - symmetry. apply Q.min_l. lra.
Qed.

Lemma py_max_Qmax (x y : Q) : (py_max x y == Qmax x y)%Q.
Proof.
  unfold py_max. destruct (Qltb_spec x y) as [H|H].
  - symmetry. apply Q.max_r. lra.
  - symmetry. apply Q.max_l. lra.
Qed.

(** ** PointCloud: the computed max_dist *)

Lemma scan_coord_extremes (seen : list Q) (lo hi x : Q) :
  extremes seen lo hi ->
  extremes (seen ++ [x]) (fst (PointCloud.scan_coord (lo, hi) x))
                         (snd (PointCloud.scan_coord (lo, hi) x)).
Proof.
  intros (Hlo & Hhi & Hb). unfold PointCloud.scan_coord. simpl.
  assert (Hlh : (lo <= hi)%Q) by (destruct (Hb lo Hlo); assumption).
  split; [|split; [|intros c Hc; split]].
  - destruct (Qltb_spec x lo); rewrite in_app_iff; simpl; auto.
  - destruct (Qltb_spec hi x); rewrite in_app_iff; simpl; auto.
  - apply in_app_iff in Hc. destruct Hc as [Hc | [<- | []]].
    + destruct (Hb c Hc). destruct (Qltb_spec x lo); lra.
    + destruct (Qltb_spec x lo); lra.
  - apply in_app_iff in Hc. destruct Hc as [Hc | [<- | []]].
    + destruct (Hb c Hc). destruct (Qltb_spec hi x); lra.
    + destruct (Qltb_spec hi x); lra.
Qed.

Lemma scan_coords_extremes (xs seen : list Q) (st : Q * Q) :
  extremes seen (fst st) (snd st) ->
  extremes (seen ++ xs) (fst (fold_left PointCloud.scan_coord xs st))
                        (snd (fold_left PointCloud.scan_coord xs st)).
Proof.
  revert seen st. induction xs as [|x xs IH]; intros seen [lo hi] H; simpl fold_left.
  - now rewrite app_nil_r.
  - replace (seen ++ x :: xs) with ((seen ++ [x]) ++ xs)
      by (rewrite <- app_assoc; reflexivity).
    apply IH. simpl in H. exact (scan_coord_extremes x H).
Qed.

Lemma scan_points_flat (pts : list Point.t) (st : Q * Q) :
  fold_left PointCloud.scan_point pts st
  = fold_left PointCloud.scan_coord (flat_map Point.coords pts) st.
Proof.
  revert st. induction pts as [|p pts IH]; intros st; simpl.
  - reflexivity.
  - rewrite fold_left_app. apply IH.
Qed.

Lemma calc_max_dist_extremes (pts : list Point.t) :
  exists lo hi,
    extremes (0%Q :: flat_map Point.coords pts) lo hi
    /\ PointCloud._calc_max_dist pts = Qabs (hi - lo)
    /\ (PointCloud._calc_max_dist pts == hi - lo)%Q.
Proof.
  unfold PointCloud._calc_max_dist. rewrite scan_points_flat.
  pose proof (@scan_coords_extremes (flat_map Point.coords pts) [0%Q] (0%Q, 0%Q)) as H.
  destruct (fold_left PointCloud.scan_coord (flat_map Point.coords pts) (0%Q, 0%Q))
    as [lo hi] eqn:E.
  simpl in H. exists lo, hi.
  assert (Hx : extremes (0%Q :: flat_map Point.coords pts) lo hi).
  { apply H. split; [|split]; simpl; auto. intros c [<- | []]. lra. }
  split; [exact Hx|]. split; [reflexivity|].
  destruct Hx as (_ & _ & Hb). destruct (Hb 0%Q (or_introl eq_refl)).
  apply Qabs_pos. lra.
Qed.

Lemma init_inv (pts : list Point.t) (name comments : option str) (md : option Q)
    (pc : PointCloud.t) :
  PointCloud.__init__ pts name comments md = inr pc ->
  PointCloud.second_param_name pc = (if truthy name then name else None)
  /\ PointCloud.points pc = pts
  /\ PointCloud.comments pc = comments
  /\ PointCloud.max_dist pc =
       match md with
       | Some d => if is_zero d then PointCloud._calc_max_dist pts else d
       | None => PointCloud._calc_max_dist pts
       end.
Proof.
  unfold PointCloud.__init__. destruct (index pts 0); simpl; [discriminate|].
  destruct (PointCloud.check_dimensions _ 0 pts); simpl; [discriminate|].
  intros H. injection H as <-. simpl. auto.
Qed.

(** C1.  A PointCloud constructed without a supplied max_dist stores the span
    of its coordinates: [hi - lo], where [hi] is the greatest and [lo] the
    least of the number 0 and all coordinates of all points.  Both bounds
    start at 0, so this is a global scale bound and not a diameter: it is the
    greatest coordinate minus the least one exactly when 0 lies between
    them. *)
Theorem C1_max_dist_is_coordinate_span
    (pts : list Point.t) (name comments : option str) (pc : PointCloud.t) :
  PointCloud.__init__ pts name comments None = inr pc ->
  (exists lo hi,
     extremes (0%Q :: flat_map Point.coords pts) lo hi
     /\ (PointCloud.max_dist pc == hi - lo)%Q)
  /\ (forall m M,
        least (flat_map Point.coords pts) m ->
        greatest (flat_map Point.coords pts) M ->
        ((PointCloud.max_dist pc == M - m)%Q <-> (m <= 0 /\ 0 <= M)%Q)).
Proof.
  intros H. apply init_inv in H. destruct H as (_ & _ & _ & ->).
  destruct (calc_max_dist_extremes pts) as (lo & hi & Hx & _ & Heq).
  split; [exists lo, hi; split; assumption|].
  intros m M [Hm_in Hm] [HM_in HM]. rewrite Heq.
  destruct Hx as (Hlo & Hhi & Hb).
  destruct (Hb 0%Q (or_introl eq_refl)) as [Hlo0 Hhi0].
  destruct (Hb m (or_intror Hm_in)) as [Hlom _].
  destruct (Hb M (or_intror HM_in)) as [_ HMhi].
  pose proof (Hm M HM_in) as HmM.
  assert (Hl : (lo == 0)%Q \/ (m <= lo)%Q).
  { destruct Hlo as [<- | Hlo]; [left; reflexivity | right; now apply Hm]. }
  assert (Hh : (hi == 0)%Q \/ (hi <= M)%Q).
  { destruct Hhi as [<- | Hhi]; [left; reflexivity | right; now apply HM]. }
  destruct Hl as [Hl | Hl], Hh as [Hh | Hh];
    (split; [intros E; split; lra | intros [E1 E2]; lra]).
Qed.

(** C8.  A supplied max_dist that is zero is not stored: construction then
    behaves as if none had been supplied and stores the computed span.  A
    supplied nonzero max_dist is stored as given.  Hence the stored max_dist
    is zero only if the computed span is zero, whatever the caller supplies. *)
Theorem C8_zero_max_dist_is_recomputed
    (pts : list Point.t) (name comments : option str) (md : Q) :
  ((md == 0)%Q ->
     PointCloud.__init__ pts name comments (Some md)
     = PointCloud.__init__ pts name comments None)
  /\ forall pc, PointCloud.__init__ pts name comments (Some md) = inr pc ->
       ((md == 0)%Q -> PointCloud.max_dist pc = PointCloud._calc_max_dist pts)
       /\ (~ (md == 0)%Q -> PointCloud.max_dist pc = md)
       /\ ((PointCloud.max_dist pc == 0)%Q -> (PointCloud._calc_max_dist pts == 0)%Q).
Proof.
  split.
  - intros Hz. apply is_zero_eq in Hz. unfold PointCloud.__init__. now rewrite Hz.
  - intros pc H. apply init_inv in H. destruct H as (_ & _ & _ & Hmd).
    destruct (is_zero md) eqn:Ez.
    + split; [|split]; intros; try assumption.
      * apply is_zero_eq in Ez. contradiction.
      * now rewrite <- Hmd.
    + assert (Hnz : ~ (md == 0)%Q).
      { intros Hz. apply is_zero_eq in Hz. congruence. }
      split; [|split]; intros; try assumption.
      * contradiction.
      * rewrite Hmd in H. contradiction.
Qed.

(** ** PointCloud: the dimension check *)

Lemma check_dimensions_first_mismatch (d : nat) (ps : list Point.t) :
  forall (k i : nat) (p : Point.t),
    nth_error ps i = Some p ->
    Point.dimension p <> d ->
    (forall j q, (j < i)%nat -> nth_error ps j = Some q -> Point.dimension q = d) ->
    PointCloud.check_dimensions d k ps
    = inl (ValueError (PointCloud.dimension_message d (k + i) (Point.dimension p))).
Proof.
  induction ps as [|p0 ps IH]; intros k i p Hi Hne Hbefore.
  - destruct i; discriminate.
  - destruct i as [|i]; simpl in Hi |- *.
    + injection Hi as ->.
      destruct (Nat.eqb_spec (Point.dimension p) d) as [E|E]; [contradiction|].
      simpl. now rewrite Nat.add_0_r.
    + assert (E : Point.dimension p0 = d).
      { apply (Hbefore 0%nat p0); [lia | reflexivity]. }
      rewrite E, Nat.eqb_refl. simpl.
      rewrite (@IH (S k) i p Hi Hne).
      * now rewrite Nat.add_succ_r.
      * intros j q Hj Hq. apply (Hbefore (S j) q); [lia | exact Hq].
Qed.

Lemma check_dimensions_ok (d : nat) (ps : list Point.t) (k : nat) :
  (forall q, In q ps -> Point.dimension q = d) ->
  PointCloud.check_dimensions d k ps = inr tt.
Proof.
  revert k. induction ps as [|p ps IH]; intros k H; simpl.
  - reflexivity.
  - rewrite (H p (or_introl eq_refl)), Nat.eqb_refl. simpl.
    apply IH. intros q Hq. apply H. now right.
Qed.

(** C5.  Construction reads the dimension of the first point, so it needs
    one: on the empty sequence it raises IndexError.  On a sequence with a
    first point, a point of another dimension makes construction raise the
    ValueError whose message names the first position that differs, and the
    constructor, which is given no stream, leaves every stream as it was; if
    all points have the dimension of the first one, construction succeeds. *)
Theorem C5_dimension_mismatch_is_reported
    (pts : list Point.t) (name comments : option str) (md : option Q) :
  (pts = [] -> PointCloud.__init__ pts name comments md = inl IndexError)
  /\ (forall p0 i p,
        nth_error pts 0 = Some p0 ->
        nth_error pts i = Some p ->
        Point.dimension p <> Point.dimension p0 ->
        (forall j q, (j < i)%nat -> nth_error pts j = Some q ->
                     Point.dimension q = Point.dimension p0) ->
        forall out : stream,
          lift (PointCloud.__init__ pts name comments md) out
          = (out, inl (ValueError (PointCloud.dimension_message
                                     (Point.dimension p0) i (Point.dimension p)))))
  /\ (forall p0,
        nth_error pts 0 = Some p0 ->
        (forall q, In q pts -> Point.dimension q = Point.dimension p0) ->
        exists pc, PointCloud.__init__ pts name comments md = inr pc
                   /\ PointCloud.points pc = pts
                   /\ PointCloud.dimension pc = Point.dimension p0).
Proof.
  split; [|split].
  - intros ->. reflexivity.
  - intros p0 i p H0 Hi Hne Hbefore out. unfold lift, PointCloud.__init__, index.
    rewrite H0. simpl.
    now rewrite (@check_dimensions_first_mismatch _ _ 0%nat _ _ Hi Hne Hbefore).
  - intros p0 H0 Hall. unfold PointCloud.__init__, index. rewrite H0. simpl.
    rewrite (@check_dimensions_ok _ _ 0%nat Hall). simpl. eexists. split; [reflexivity|].
    split; reflexivity.
Qed.

(** The claim as stated promises success whenever all points share one
    dimension; the points of the empty sequence do, and construction raises. *)
Lemma C5_counterexample_empty_sequence :
  ~ ((forall p q : Point.t, In p [] -> In q [] -> Point.dimension p = Point.dimension q) ->
     exists pc, PointCloud.__init__ [] None None None = inr pc).
Proof.
  intros H. destruct H as [pc Hpc].
  - intros p q [].
  - discriminate Hpc.
Qed.

Lemma C5_witness :
  lift (PointCloud.__init__ (points [[1; 2]; [3; 4]; [5]; []]%Q (Scalar 0)) None None None) []
  = ([], inl (ValueError (PointCloud.dimension_message 2 2 1))).
Proof.
  refine (proj1 (proj2 (@C5_dimension_mismatch_is_reported
           (points [[1; 2]; [3; 4]; [5]; []]%Q (Scalar 0)) None None None))
           (Point.__init__ (Scalar 0) [1; 2]%Q) 2%nat (Point.__init__ (Scalar 0) [5]%Q)
           eq_refl eq_refl _ _ []).
  - simpl. discriminate.
  - intros j q Hj Hq.
    destruct j as [|[|j]]; simpl in Hq; try lia; injection Hq as <-; reflexivity.
Defined.

(** The claim lets only the lower bound start at 0.  The two readings differ
    on a cloud without a positive coordinate: for the points (-1) and (-3) the
    code stores 3, which is 0 - (-3), while the greatest coordinate minus the
    lower bound is 2, which is -1 - (-3). *)
Lemma C1_counterexample_negative_coordinates :
  exists pc,
    PointCloud.__init__ cloud_negative None None None = inr pc
    /\ (PointCloud.max_dist pc == 3)%Q
    /\ ~ span_from_lower_bound_zero cloud_negative (PointCloud.max_dist pc).
Proof.
  eexists. split; [reflexivity|]. split; [reflexivity|].
  intros (lo & hi & [Hhi _] & [Hlo _] & Heq).
  assert (H1 : (hi <= -1)%Q).
  { destruct Hhi as [<- | [<- | []]]; lra. }
  assert (H2 : (-3 <= lo)%Q).
  { destruct Hlo as [<- | [<- | [<- | []]]]; lra. }
  cbn in Heq. lra.
Qed.

Lemma C1_witness :
  PointCloud.__init__ cloud_negative None None None
  = inr {| PointCloud.second_param_name := None; PointCloud.points := cloud_negative;
           PointCloud.comments := None; PointCloud.dimension := 1;
           PointCloud.max_dist := 3 |}
  /\ exists lo hi,
       extremes (0%Q :: flat_map Point.coords cloud_negative) lo hi /\ (3 == hi - lo)%Q.
Proof.
  split; [reflexivity|].
  exact (proj1 (@C1_max_dist_is_coordinate_span cloud_negative None None _ eq_refl)).
Defined.

Lemma C8_witness :
  PointCloud.__init__ cloud0 None None (Some 0%Q)
  = PointCloud.__init__ cloud0 None None None.
Proof.
  apply (proj1 (C8_zero_max_dist_is_recomputed cloud0 None None 0%Q)). reflexivity.
Defined.

(** ** Streams *)

Lemma for_each_writes {A} (body : A -> io unit) (f : A -> list str) (l : list A) :
  (forall x, In x l -> forall o, body x o = (o ++ f x, inr tt)) ->
  forall out, for_each body l out = (out ++ flat_map f l, inr tt).
Proof.
  induction l as [|x l IH]; intros H out; simpl.
  - unfold skip, io_ret. now rewrite app_nil_r.
  - unfold io_bind. rewrite (H x (or_introl eq_refl)).
    rewrite IH by (intros y Hy; apply H; now right).
    now rewrite <- app_assoc.
Qed.

Lemma write_then {A} (s : str) (k : io A) (out : stream) :
  io_bind (write s) (fun _ => k) out = k (out ++ [s]).
Proof. reflexivity. Qed.

(** ** PointCloud: the encoder *)

Lemma save_coords (p : Point.t) (out : stream) :
  for_each (fun c => io_bind (write (format_f c)) (fun _ => write (u " ")))
           (Point.coords p) out
  = (out ++ coord_tokens p, inr tt).
Proof.
  unfold coord_tokens. apply for_each_writes.
  intros c _ o. unfold io_bind, write. simpl. now rewrite <- app_assoc.
Qed.

Lemma save_point_writes (name : option str) (p : Point.t) (out : stream) :
  (name <> None -> exists v, Point.appearance p = Scalar v) ->
  PointCloud.save_point name p out
  = (out ++ point_line (match name with Some _ => true | None => false end) p, inr tt).
Proof.
  intros H. unfold PointCloud.save_point, point_line, io_bind.
  rewrite save_coords. destruct name as [n|].
  - destruct H as [v Hv]; [discriminate|].
    unfold appearance_tokens. rewrite Hv. simpl. unfold write.
    now rewrite <- !app_assoc.
  - simpl. unfold write. now rewrite <- !app_assoc.
Qed.

(** C9.  An empty second_param_name is the same as none: the constructor
    stores None for both.  [save] then writes the line "no function" and, for
    each point, its coordinates only; it writes the name and, for each point,
    its coordinates followed by its appearance value exactly when a non-empty
    name was supplied. *)
Theorem C9_empty_name_is_no_function
    (pts : list Point.t) (comments : option str) (md : option Q) :
  PointCloud.__init__ pts (Some []) comments md = PointCloud.__init__ pts None comments md
  /\ forall name pc out,
       PointCloud.__init__ pts name comments md = inr pc ->
       (truthy name = true ->
        forall p, In p pts -> exists v, Point.appearance p = Scalar v) ->
       PointCloud.second_param_name pc = (if truthy name then name else None)
       /\ PointCloud.save pc out
          = (out ++ comment_lines comments
                 ++ [u "points" ++ [LF];
                     str_of_nat (PointCloud.dimension pc) ++ [LF];
                     format_f (PointCloud.max_dist pc) ++ [LF];
                     (if truthy name
                      then match name with Some n => n | None => [] end
                      else u "no function") ++ [LF]]
                 ++ flat_map (point_line (truthy name)) pts
                 ++ [[LF]],
             inr tt).
Proof.
  split; [reflexivity|].
  intros name pc out Hinit Happ.
  destruct (init_inv _ _ _ _ Hinit) as (Hname & Hpts & Hcom & _).
  split; [exact Hname|].
  unfold PointCloud.save. rewrite Hname, Hpts, Hcom.
  assert (Hc : forall o (k : io unit),
    io_bind (if truthy comments
             then writelines (map (fun line => u "# " ++ line ++ [LF])
                    (str_split LF (match comments with Some c => c | None => [] end)))
             else skip) (fun _ => k) o = k (o ++ comment_lines comments)).
  { intros o k. unfold io_bind, comment_lines.
    destruct comments as [[|c r]|]; simpl; unfold skip, io_ret;
      rewrite ?app_nil_r; reflexivity. }
  rewrite Hc. rewrite !write_then.
  assert (Hsel : forall o (k : io unit),
    io_bind (match (if truthy name then name else None) with
             | Some n => write (n ++ [LF])
             | None => write (u "no function" ++ [LF])
             end) (fun _ => k) o
    = k (o ++ [(if truthy name then match name with Some n => n | None => [] end
                else u "no function") ++ [LF]])).
  { intros o k. destruct name as [[|c r]|]; reflexivity. }
  rewrite Hsel. unfold io_bind at 1.
  rewrite (for_each_writes (PointCloud.save_point (if truthy name then name else None))
             (point_line (truthy name))).
  - unfold write. rewrite <- !app_assoc. reflexivity.
  - intros p Hp o. rewrite save_point_writes.
    + destruct name as [[|c r]|]; reflexivity.
    + intros Hn. apply Happ; [|exact Hp]. destruct name as [[|c r]|]; simpl in *; congruence.
Qed.

Lemma C9_witness :
  PointCloud.save
    {| PointCloud.second_param_name := None; PointCloud.points := cloud0;
       PointCloud.comments := None; PointCloud.dimension := 2;
       PointCloud.max_dist := 7 |} []
  = ([u "points" ++ [LF]; u "2" ++ [LF]; u "7.000000" ++ [LF]; u "no function" ++ [LF];
      u "1.000000"; u " "; u "2.000000"; u " "; [LF];
      u "3.000000"; u " "; u "-4.000000"; u " "; [LF]; [LF]], inr tt).
Proof.
  refine (proj2 (proj2 (C9_empty_name_is_no_function cloud0 None None)
                   (Some []) _ [] eq_refl _)).
  intros H. discriminate H.
Defined.

(** ** MetricSpace: the encoder *)

Lemma save_preamble_writes (self : MetricSpace.t) (out : stream) :
  MetricSpace.save_preamble self out = (preamble self, inr tt).
Proof.
  unfold MetricSpace.save_preamble, preamble, comment_block.
  destruct self as [com al dl av m]; simpl.
  destruct com as [[|c r]|]; destruct av as [vs|]; reflexivity.
Qed.

Lemma mapM_ok {A B} (f : A -> result B) (g : A -> B) (l : list A) :
  (forall x, In x l -> f x = inr (g x)) -> mapM f l = inr (map g l).
Proof.
  induction l as [|x l IH]; intros H; simpl.
  - reflexivity.
  - rewrite (H x (or_introl eq_refl)). simpl.
    rewrite IH by (intros y Hy; apply H; now right). reflexivity.
Qed.

Lemma index_nth {A} (l : list A) (i : nat) (d : A) :
  (i < length l)%nat -> index l i = inr (nth i l d).
Proof.
  intros H. unfold index. now rewrite (nth_error_nth' l d H).
Qed.

Lemma entry_square (m : list (list Q)) (i j : nat) :
  square m -> (i < length m)%nat -> (j < length m)%nat ->
  entry m i j = inr (at_ m i j).
Proof.
  intros Hsq Hi Hj. unfold entry, at_.
  rewrite (index_nth m [] Hi). simpl.
  apply index_nth. rewrite (Hsq (nth i m [])); [exact Hj | now apply nth_In].
Qed.

Lemma fold_py_max (r : list Q) (x : Q) :
  In (fold_left py_max r x) (x :: r)
  /\ forall y, In y (x :: r) -> (y <= fold_left py_max r x)%Q.
Proof.
  revert x. induction r as [|z r IH]; intros x; simpl.
  - split; [now left|]. intros y [<- | []]. lra.
  - destruct (IH (py_max x z)) as [Hin Hle]. split.
    + destruct Hin as [Hin | Hin]; [|right; right; exact Hin].
      rewrite <- Hin. unfold py_max. destruct (Qltb x z); auto.
    + assert (Hx : (x <= py_max x z)%Q /\ (z <= py_max x z)%Q).
      { unfold py_max. destruct (Qltb_spec x z); split; lra. }
      destruct Hx as [Hx Hz].
      assert (Hm : (py_max x z <= fold_left py_max r (py_max x z))%Q)
        by (apply Hle; now left).
      intros y [<- | [<- | Hy]]; try lra. apply Hle. now right.
Qed.

Lemma in_index_pairs (n i j : nat) :
  In (i, j) (index_pairs n) <-> (i < n)%nat /\ (j < n)%nat.
Proof.
  unfold index_pairs. rewrite in_flat_map. split.
  - intros (i' & Hi & Hij). apply in_map_iff in Hij.
    destruct Hij as (j' & E & Hj). injection E as <- <-.
    apply in_seq in Hi, Hj. lia.
  - intros [Hi Hj]. exists i. split; [apply in_seq; lia|].
    apply in_map. apply in_seq. lia.
Qed.

Lemma all_entries_square (m : list (list Q)) :
  square m ->
  MetricSpace.all_entries m (length m)
  = inr (map (fun ij => at_ m (fst ij) (snd ij)) (index_pairs (length m))).
Proof.
  intros Hsq. unfold MetricSpace.all_entries. apply mapM_ok.
  intros [i j] Hij. apply in_index_pairs in Hij. simpl.
  now apply entry_square.
Qed.

Lemma save_row_writes (m : list (list Q)) (r : nat) (out : stream) :
  square m -> (r < length m)%nat ->
  MetricSpace.save_row m (length m) r out = (out ++ row_tokens m (length m) r, inr tt).
Proof.
  intros Hsq Hr. unfold MetricSpace.save_row, row_tokens, io_bind.
  rewrite (for_each_writes _
             (fun c => [format_f (nth c (nth r m []) 0%Q) ++ u " "])).
  - unfold write. rewrite <- app_assoc.
    replace (flat_map (fun c => [format_f (nth c (nth r m []) 0%Q) ++ u " "])
               (seq (r + 1) (length m - (r + 1))))
      with (map (fun c => format_f (nth c (nth r m []) 0%Q) ++ u " ")
               (seq (r + 1) (length m - (r + 1)))); [reflexivity|].
    induction (seq (r + 1) (length m - (r + 1))) as [|c l IH]; simpl; congruence.
  - intros c Hc o. apply in_seq in Hc.
    unfold lift. rewrite entry_square by (assumption || lia). reflexivity.
Qed.

Lemma max_of_square (m : list (list Q)) :
  square m -> (2 <= length m)%nat ->
  exists mx,
    (es <- MetricSpace.all_entries m (length m) ;; max_star es) = inr mx
    /\ (exists i j, (i < length m)%nat /\ (j < length m)%nat /\ mx = at_ m i j)
    /\ (forall i j, (i < length m)%nat -> (j < length m)%nat -> (at_ m i j <= mx)%Q).
Proof.
  intros Hsq Hn. rewrite (all_entries_square Hsq). simpl.
  set (g := fun ij : nat * nat => at_ m (fst ij) (snd ij)).
  assert (Hin : forall q, In q (map g (index_pairs (length m))) <->
                          exists i j, (i < length m)%nat /\ (j < length m)%nat /\ q = at_ m i j).
  { intros q. rewrite in_map_iff. split.
    - intros ([i j] & <- & H). apply in_index_pairs in H. exists i, j. tauto.
    - intros (i & j & Hi & Hj & ->). exists (i, j). split; [reflexivity|].
      apply in_index_pairs. tauto. }
  destruct (map g (index_pairs (length m))) as [|x [|y r]] eqn:E.
  - exfalso. destruct (proj2 (Hin (at_ m 0 0))). exists 0%nat, 0%nat. repeat split; lia.
  - exfalso.
    assert (H : length (map g (index_pairs (length m))) = 1%nat) by now rewrite E.
    rewrite length_map in H. unfold index_pairs in H.
    destruct (length m) as [|[|k]]; try lia. simpl in H. rewrite !length_app in H.
    simpl in H. lia.
  - destruct (fold_py_max (y :: r) x) as [Hmem Hle].
    exists (fold_left py_max (y :: r) x). split; [reflexivity|].
    split.
    + apply Hin. exact Hmem.
    + intros i j Hi Hj. apply Hle. apply Hin. exists i, j. tauto.
Qed.

Lemma save_rows_writes (m : list (list Q)) (out : stream) :
  square m ->
  for_each (MetricSpace.save_row m (length m)) (seq 0 (length m)) out
  = (out ++ flat_map (row_tokens m (length m)) (seq 0 (length m)), inr tt).
Proof.
  intros Hsq. apply for_each_writes.
  intros r Hr o. apply save_row_writes; [assumption|]. apply in_seq in Hr. lia.
Qed.

Lemma save_unfold (self : MetricSpace.t) (out : stream) :
  MetricSpace.save self out
  = match (es <- MetricSpace.all_entries (MetricSpace.distance_matrix self)
                   (length (MetricSpace.distance_matrix self)) ;; max_star es) with
    | inl e => (preamble self, inl e)
    | inr mx =>
        for_each (MetricSpace.save_row (MetricSpace.distance_matrix self)
                    (length (MetricSpace.distance_matrix self)))
                 (seq 0 (length (MetricSpace.distance_matrix self)))
                 (preamble self ++ [format_f mx ++ [LF]])
    end.
Proof.
  unfold MetricSpace.save. unfold io_bind at 1. rewrite save_preamble_writes.
  unfold io_bind, lift.
  destruct (MetricSpace.all_entries _ _) as [e|es]; simpl; [reflexivity|].
  destruct (max_star es) as [e|mx]; reflexivity.
Qed.

(** C6.  For an [n] by [n] distance matrix with [n >= 2], [save] writes, after
    the preamble, the line of the greatest entry among all [m[i][j]] with
    [i, j < n] (the whole matrix, not its upper triangle), and then for each
    row [r] from 0 to [n-1] the entries of the columns [r+1] to [n-1], one
    ["%f "] token each, and a newline.  Without appearance values the
    preamble ends with "no function", the number of points and the distance
    label.  A 3 by 3 matrix gives rows of 2, 1 and 0 tokens. *)
Theorem C6_metric_space_save (self : MetricSpace.t) (out : stream) :
  let m := MetricSpace.distance_matrix self in
  let n := length m in
  (2 <= n)%nat -> square m ->
  exists mx,
    (exists i j, (i < n)%nat /\ (j < n)%nat /\ mx = at_ m i j)
    /\ (forall i j, (i < n)%nat -> (j < n)%nat -> (at_ m i j <= mx)%Q)
    /\ MetricSpace.save self out
       = (preamble self ++ [format_f mx ++ [LF]]
            ++ flat_map (row_tokens m n) (seq 0 n), inr tt)
    /\ (forall r, (r < n)%nat -> length (row_tokens m n r) = (n - 1 - r + 1)%nat)
    /\ (MetricSpace.appearance_values self = None ->
        preamble self
        = [u "metric" ++ [LF]] ++ comment_block (MetricSpace.comment self)
            ++ [u "no function" ++ [LF]; str_of_nat n ++ [LF];
                MetricSpace.distance_label self ++ [LF]])
    /\ (n = 3%nat ->
        flat_map (row_tokens m n) (seq 0 n)
        = [format_f (at_ m 0 1) ++ u " "; format_f (at_ m 0 2) ++ u " "; [LF];
           format_f (at_ m 1 2) ++ u " "; [LF];
           [LF]]).
Proof.
  intros m n Hn Hsq.
  destruct (max_of_square Hsq Hn) as (mx & Hmx & Hin & Hle).
  exists mx. split; [exact Hin|]. split; [exact Hle|]. split; [|split; [|split]].
  - rewrite save_unfold. fold m. fold n. unfold n at 1 2. rewrite Hmx.
    unfold n. rewrite save_rows_writes by assumption.
    now rewrite <- app_assoc.
  - intros r Hr. unfold row_tokens. rewrite length_app, length_map, length_seq.
    simpl. lia.
  - intros Hav. unfold preamble. rewrite Hav. reflexivity.
  - intros ->. reflexivity.
Qed.

Lemma C6_witness :
  exists mx,
    MetricSpace.save metric3 [u "stale"]
    = ([u "metric" ++ [LF]; u "no function" ++ [LF]; u "3" ++ [LF];
        u "distance" ++ [LF]; format_f mx ++ [LF];
        u "1.000000 "; u "2.000000 "; [LF]; u "3.000000 "; [LF]; [LF]], inr tt)
    /\ (forall i j, (i < 3)%nat -> (j < 3)%nat ->
        (at_ (MetricSpace.distance_matrix metric3) i j <= mx)%Q).
Proof.
  assert (Hn : (2 <= length (MetricSpace.distance_matrix metric3))%nat)
    by (simpl; lia).
  assert (Hsq : square (MetricSpace.distance_matrix metric3)).
  { intros row [<- | [<- | [<- | []]]]; reflexivity. }
  destruct (C6_metric_space_save metric3 [u "stale"] Hn Hsq)
    as (mx & _ & Hle & Hsave & _).
  exists mx. split; [exact Hsave | exact Hle].
Defined.

(** C10.  [save] returns normally only for a distance matrix with at least
    two rows.  On a 1 by 1 matrix, which the constructor accepts like any
    other, [max] receives a single number and raises TypeError when only the
    preamble has been written: no line of the maximum, no distance row.  The
    same happens on the empty matrix, where [max] receives no argument. *)
Theorem C10_save_needs_two_rows (self : MetricSpace.t) (out : stream) :
  (forall out', MetricSpace.save self out = (out', inr tt) ->
                (2 <= length (MetricSpace.distance_matrix self))%nat)
  /\ (forall x, MetricSpace.distance_matrix self = [[x]] ->
                MetricSpace.save self out = (preamble self, inl TypeError))
  /\ (MetricSpace.distance_matrix self = [] ->
      MetricSpace.save self out = (preamble self, inl TypeError)).
Proof.
  split; [|split].
  - intros out'. rewrite save_unfold.
    destruct (MetricSpace.distance_matrix self) as [|r0 [|r1 rs]]; simpl.
    + discriminate.
    + unfold MetricSpace.all_entries, entry. simpl.
      destruct (index r0 0) as [e|x]; simpl; discriminate.
    + intros _. lia.
  - intros x Hm. rewrite save_unfold, Hm. reflexivity.
  - intros Hm. rewrite save_unfold, Hm. reflexivity.
Qed.

Lemma C10_witness :
  MetricSpace.save metric1 []
  = ([u "metric" ++ [LF]; u "no function" ++ [LF]; u "1" ++ [LF]; u "distance" ++ [LF]],
     inl TypeError).
Proof.
  exact (proj1 (proj2 (C10_save_needs_two_rows metric1 [])) 5%Q eq_refl).
Defined.

(** ** Bounds *)

Ltac by_cases_on_Qltb :=
  repeat (match goal with
          | |- context [Qltb ?x ?y] => is_var x; is_var y; destruct (Qltb_spec x y)
          end; cbv iota);
  lra.

Lemma py_min_comm (x y : Q) : (py_min x y == py_min y x)%Q.
Proof. unfold py_min. by_cases_on_Qltb. Qed.

Lemma py_max_comm (x y : Q) : (py_max x y == py_max y x)%Q.
Proof. unfold py_max. by_cases_on_Qltb. Qed.

Lemma py_min_assoc (x y z : Q) : (py_min (py_min x y) z == py_min x (py_min y z))%Q.
Proof. unfold py_min. by_cases_on_Qltb. Qed.

Lemma py_max_assoc (x y z : Q) : (py_max (py_max x y) z == py_max x (py_max y z))%Q.
Proof. unfold py_max. by_cases_on_Qltb. Qed.

Lemma rectangle_inv (x : Bounds.t Q) :
  rectangle x ->
  exists l0 l1 r0 r1, x = Bounds.__init__ [l0; l1] [r0; r1].
Proof.
  destruct x as [[|l0 [|l1 [|]]] [|r0 [|r1 [|]]]]; intros [Hl Hr]; try discriminate.
  now exists l0, l1, r0, r1.
Qed.

(** C7.  On Bounds with two coordinates per corner, [common_bounds] returns
    the coordinate-wise minimum of the lower-left corners and the
    coordinate-wise maximum of the upper-right corners, in a new Bounds: it is
    a function of the values of its operands, which it only reads.  It is
    commutative and associative, corner by corner, for the numbers' [==]. *)
Theorem C7_common_bounds (a b c : Bounds.t Q) :
  rectangle a -> rectangle b -> rectangle c ->
  exists ab ba ab_c a_bc,
    Bounds.common_bounds a b = inr ab
    /\ Bounds.common_bounds b a = inr ba
    /\ (x <- Bounds.common_bounds a b ;; Bounds.common_bounds x c) = inr ab_c
    /\ (y <- Bounds.common_bounds b c ;; Bounds.common_bounds a y) = inr a_bc
    /\ corner_eq (Bounds.lower_left ab)
         [Qmin (coord (Bounds.lower_left a) 0) (coord (Bounds.lower_left b) 0);
          Qmin (coord (Bounds.lower_left a) 1) (coord (Bounds.lower_left b) 1)]
    /\ corner_eq (Bounds.upper_right ab)
         [Qmax (coord (Bounds.upper_right a) 0) (coord (Bounds.upper_right b) 0);
          Qmax (coord (Bounds.upper_right a) 1) (coord (Bounds.upper_right b) 1)]
    /\ bounds_eq ab ba
    /\ bounds_eq ab_c a_bc.
Proof.
  intros Ha Hb Hc.
  destruct (rectangle_inv Ha) as (a0 & a1 & a2 & a3 & ->).
  destruct (rectangle_inv Hb) as (b0 & b1 & b2 & b3 & ->).
  destruct (rectangle_inv Hc) as (c0 & c1 & c2 & c3 & ->).
  do 4 eexists.
  split; [reflexivity|]. split; [reflexivity|].
  split; [reflexivity|]. split; [reflexivity|].
  unfold bounds_eq, corner_eq, coord; simpl.
  repeat split; repeat constructor;
    auto using py_min_Qmin, py_max_Qmax, py_min_comm, py_max_comm,
               py_min_assoc, py_max_assoc.
Qed.

Lemma C7_witness :
  exists ab ba ab_c a_bc,
    Bounds.common_bounds (Bounds.__init__ [0; 1] [2; 5]) (Bounds.__init__ [1; 0] [3; 4]) = inr ab
    /\ Bounds.common_bounds (Bounds.__init__ [1; 0] [3; 4]) (Bounds.__init__ [0; 1] [2; 5]) = inr ba
    /\ (x <- Bounds.common_bounds (Bounds.__init__ [0; 1] [2; 5]) (Bounds.__init__ [1; 0] [3; 4]) ;;
        Bounds.common_bounds x (Bounds.__init__ [-1; 2] [1; 1])) = inr ab_c
    /\ (y <- Bounds.common_bounds (Bounds.__init__ [1; 0] [3; 4]) (Bounds.__init__ [-1; 2] [1; 1]) ;;
        Bounds.common_bounds (Bounds.__init__ [0; 1] [2; 5]) y) = inr a_bc
    /\ corner_eq (Bounds.lower_left ab) [Qmin 0 1; Qmin 1 0]
    /\ corner_eq (Bounds.upper_right ab) [Qmax 2 3; Qmax 5 4]
    /\ bounds_eq ab ba
    /\ bounds_eq ab_c a_bc.
Proof.
  apply (@C7_common_bounds (Bounds.__init__ [0; 1] [2; 5]) (Bounds.__init__ [1; 0] [3; 4])
           (Bounds.__init__ [-1; 2] [1; 1])); split; reflexivity.
Defined.

(** ** The parsers: loops *)

Lemma foldM_app {S A} (body : S -> A -> result S) (l1 l2 : list A) (st : S) :
  foldM body (l1 ++ l2) st = (st' <- foldM body l1 st ;; foldM body l2 st').
Proof.
  revert st. induction l1 as [|x l1 IH]; intros st; simpl.
  - reflexivity.
  - destruct (body st x) as [e|st']; simpl; [reflexivity | apply IH].
Qed.

(** ** The bounds parser *)

Lemma low_is_not_high (s : str) :
  str_startswith (u "low:") s = true -> str_startswith (u "high:") s = false.
Proof.
  unfold str_startswith.
  change (u "low:") with [108; 111; 119; 58]%N.
  change (u "high:") with [104; 105; 103; 104; 58]%N.
  destruct s as [|c s]; [discriminate|]. cbn [startswith].
  destruct (N.eqb_spec 108 c) as [<-|]; [reflexivity | discriminate].
Qed.

Lemma parse_bounds_snoc (lines : list bytes) (line : bytes) :
  parse_bounds (lines ++ [line])
  = (b0 <- parse_bounds lines ;;
     st <- parse_bounds_line (Bounds.lower_left b0, Bounds.upper_right b0) line ;;
     ret (Bounds.__init__ (fst st) (snd st))).
Proof.
  unfold parse_bounds. rewrite foldM_app.
  destruct (foldM parse_bounds_line lines _) as [e|[low high]]; [reflexivity|].
  cbn [bind foldM ret Bounds.__init__ Bounds.lower_left Bounds.upper_right].
  destruct (parse_bounds_line (low, high) line) as [e|[low' high']]; reflexivity.
Qed.

Lemma parse_bounds_line_read (low high : list number) (line : bytes) :
  parse_bounds_line (low, high) line
  = (l <- read_bounds_line line ;;
     ret match l with
         | Low corner => (corner, high)
         | High corner => (low, corner)
         | Other => (low, high)
         end).
Proof.
  unfold parse_bounds_line, read_bounds_line.
  destruct (decode_utf8 line) as [e|s]; cbn [bind]; [reflexivity|].
  destruct (str_startswith (u "low:") (str_strip s)) eqn:El.
  - rewrite (low_is_not_high _ El). destruct (float_tuple _); reflexivity.
  - destruct (str_startswith (u "high:") (str_strip s)); [|reflexivity].
    destruct (float_tuple _); reflexivity.
Qed.

Lemma parse_bounds_from (lines : list bytes) (low high : list number) :
  foldM parse_bounds_line lines (low, high)
  = (ls <- mapM read_bounds_line lines ;; ret (last_low low ls, last_high high ls)).
Proof.
  revert low high. induction lines as [|line lines IH]; intros low high; [reflexivity|].
  cbn [foldM mapM]. rewrite parse_bounds_line_read.
  destruct (read_bounds_line line) as [e|[c|c|]]; cbn [bind ret]; [reflexivity| | |];
    rewrite IH; destruct (mapM read_bounds_line lines); reflexivity.
Qed.

(** C4.  The bounds parser starts from the corners (0, 0) and (0, 0).  A line
    that, decoded and stripped, starts with "low:" replaces the lower-left
    corner by the comma-separated floats found after its 5th character; one
    that starts with "high:" replaces the upper-right corner by those found
    after its 6th character; any other line changes nothing.  So on every
    sequence of lines the parser returns the corner of the last "low:" line
    and that of the last "high:" line, or (0, 0) where there is none, unless
    reading a line raises: then the parser raises what the first such line
    raises.  The floats are those of [float]: infinities included. *)
Theorem C4_parse_bounds :
  parse_bounds [] = inr (Bounds.__init__ [Int 0; Int 0] [Int 0; Int 0])
  /\ parse_bounds [bt "low: 1.0,2.0"; bt "high: 3.0,4.0"]
     = inr (Bounds.__init__ [Float (float_of_Q 1); Float (float_of_Q 2)]
                            [Float (float_of_Q 3); Float (float_of_Q 4)])
  /\ parse_bounds [bt "low: -inf,0"; bt "high: Infinity,1e400"]
     = inr (Bounds.__init__ [Float (S754_infinity true); Float (S754_zero false)]
                            [Float (S754_infinity false); Float (S754_infinity false)])
  /\ (forall lines,
        parse_bounds lines
        = (ls <- mapM read_bounds_line lines ;;
           ret (Bounds.__init__ (last_low origin ls) (last_high origin ls))))
  /\ (forall lines line b0,
        parse_bounds lines = inr b0 ->
        parse_bounds (lines ++ [line])
        = (l <- read_bounds_line line ;;
           ret match l with
               | Low corner => Bounds.__init__ corner (Bounds.upper_right b0)
               | High corner => Bounds.__init__ (Bounds.lower_left b0) corner
               | Other => b0
               end))
  /\ forall lines line s b0,
       parse_bounds lines = inr b0 ->
       decode_utf8 line = inr s ->
       (str_startswith (u "low:") (str_strip s) = true ->
        forall low, float_tuple (skipn 5 (str_strip s)) = inr low ->
        parse_bounds (lines ++ [line])
        = inr (Bounds.__init__ low (Bounds.upper_right b0)))
       /\ (str_startswith (u "high:") (str_strip s) = true ->
           forall high, float_tuple (skipn 6 (str_strip s)) = inr high ->
           parse_bounds (lines ++ [line])
           = inr (Bounds.__init__ (Bounds.lower_left b0) high))
       /\ (str_startswith (u "low:") (str_strip s) = false ->
           str_startswith (u "high:") (str_strip s) = false ->
           parse_bounds (lines ++ [line]) = inr b0).
Proof.
  split; [reflexivity|]. split; [vm_compute; reflexivity|].
  split; [vm_compute; reflexivity|]. split; [|split].
  - intros lines. unfold parse_bounds, origin. rewrite parse_bounds_from.
    destruct (mapM read_bounds_line lines); reflexivity.
  - intros lines line b0 Hb0. rewrite parse_bounds_snoc, Hb0. cbn [bind].
    rewrite parse_bounds_line_read.
    destruct (read_bounds_line line) as [e|[c|c|]]; cbn [bind ret fst snd];
      try reflexivity.
    now destruct b0.
  - intros lines line s b0 Hb0 Hs.
    rewrite parse_bounds_snoc, Hb0. cbn [bind]. unfold parse_bounds_line.
    rewrite Hs. cbn [bind].
    split; [|split].
    + intros Hlow low Hf. rewrite Hlow, (low_is_not_high _ Hlow), Hf. reflexivity.
    + intros Hhigh high Hf. rewrite Hhigh, Hf.
      destruct (str_startswith (u "low:") (str_strip s)) eqn:E.
      * apply low_is_not_high in E. congruence.
      * reflexivity.
    + intros -> ->. destruct b0. reflexivity.
Qed.

Lemma C4_witness :
  parse_bounds ([bt "low: 1.0,2.0"; bt "high: 3.0,4.0"] ++ [bt " low: -inf,5e-1 "])
  = inr (Bounds.__init__ [Float (S754_infinity true); Float (float_of_Q (1 # 2))]
                         [Float (float_of_Q 3); Float (float_of_Q 4)]).
Proof.
  refine (proj1 (proj2 (proj2 (proj2 (proj2 (proj2 C4_parse_bounds))))
            [bt "low: 1.0,2.0"; bt "high: 3.0,4.0"] (bt " low: -inf,5e-1 ")
            (u " low: -inf,5e-1 ")
            (Bounds.__init__ [Float (float_of_Q 1); Float (float_of_Q 2)]
                             [Float (float_of_Q 3); Float (float_of_Q 4)]) _ eq_refl)
            eq_refl _ _).
  - vm_compute. reflexivity.
  - vm_compute. reflexivity.
Defined.

(** ** The Betti parser *)

(** C3.  On the block of the specification the Betti parser returns the
    grades 1/2, 1 and 1, 2 as exact rationals, equal as Dimensions to
    Dimensions([1/2, 1], [1, 2]), with xi_0 = [(0,0,1)] and xi_1, xi_2 empty.
    A blank line leaves the lists as they are and resets both the current
    grade list and the current xi list. *)
Theorem C3_parse_betti :
  (exists mb,
     _parse_betti betti_text = inr mb
     /\ MultiBetti.dimensions mb = Dimensions.__init__ [1 # 2; 1] [1; 2]
     /\ Dimensions.__eq__ (MultiBetti.dimensions mb)
          (Dimensions.__init__ [1 # 2; 1] [1; 2]) = true
     /\ MultiBetti.xi_0 mb = [[0; 0; 1]%Z]
     /\ MultiBetti.xi_1 mb = []
     /\ MultiBetti.xi_2 mb = [])
  /\ forall st line,
       blank line = true ->
       exists st',
         parse_betti_line st line = inr st'
         /\ current_grades st' = None /\ current_xi st' = None
         /\ x_grades st' = x_grades st /\ y_grades st' = y_grades st
         /\ xi0 st' = xi0 st /\ xi1 st' = xi1 st /\ xi2 st' = xi2 st.
Proof.
  split.
  - eexists. split; [vm_compute; reflexivity|]. repeat split.
  - intros st line Hb. unfold blank in Hb. unfold parse_betti_line.
    destruct (bytes_strip line); [|discriminate]. simpl.
    eexists. split; [reflexivity|]. repeat split.
Qed.

Lemma C3_witness :
  exists st',
    parse_betti_line (set_current_xi (Some Xi1) (set_current_grades (Some X_grades) betti_init))
                     (bt "   ") = inr st'
    /\ current_grades st' = None /\ current_xi st' = None.
Proof.
  destruct (proj2 C3_parse_betti
              (set_current_xi (Some Xi1) (set_current_grades (Some X_grades) betti_init))
              (bt "   ") eq_refl) as (st' & H & Hg & Hx & _).
  exists st'. repeat split; assumption.
Defined.

(** ** Splitting *)

Section Splitting.
Variable A : Type.
Variable eqb : A -> A -> bool.
Variable sep : A.

Lemma split_on_length (s : list A) :
  length (split_on eqb sep s) = S (length (filter (fun c => eqb c sep) s)).
Proof.
  induction s as [|c s IH]; simpl.
  - reflexivity.
  - destruct (eqb c sep); simpl.
    + now rewrite IH.
    + destruct (split_on eqb sep s); simpl in *; [discriminate | exact IH].
Qed.

Lemma split_on_single (s piece : list A) :
  split_on eqb sep s = [piece] -> piece = s.
Proof.
  revert piece. induction s as [|c s IH]; intros piece; simpl.
  - now intros [= <-].
  - destruct (eqb c sep).
    + intros H. pose proof (split_on_length s) as L.
      injection H as _ H. rewrite H in L. discriminate.
    + pose proof (split_on_length s) as L.
      destruct (split_on eqb sep s) as [|p ps]; [discriminate L|].
      intros [= <- ->]. now rewrite (IH p eq_refl).
Qed.

(** When [split] gives exactly two pieces, the separator occurs once, and a
    single split at its first occurrence gives the same two pieces. *)
Lemma split_on_pair (s x y : list A) :
  split_on eqb sep s = [x; y] -> split_first eqb sep s = [x; y].
Proof.
  revert x y. induction s as [|c s IH]; intros x y; simpl.
  - discriminate.
  - destruct (eqb c sep).
    + intros [= <- H]. now rewrite (split_on_single _ H).
    + destruct (split_on eqb sep s) as [|p ps]; [discriminate|].
      intros [= <- ->]. now rewrite (IH p y eq_refl).
Qed.

End Splitting.

Lemma unpack2_length {A} (l : list A) (x y : A) :
  unpack2 l = inr (x, y) -> l = [x; y].
Proof.
  destruct l as [|a [|b [|c l]]]; try discriminate. now intros [= -> ->].
Qed.

Lemma foldM_mono {S A} (f g : S -> A -> result S) (l : list A) :
  (forall st x st', f st x = inr st' -> g st x = inr st') ->
  forall st r, foldM f l st = inr r -> foldM g l st = inr r.
Proof.
  intros H. induction l as [|x l IH]; intros st r; simpl; [auto|].
  destruct (f st x) as [e|st'] eqn:E; simpl; [discriminate|].
  rewrite (H _ _ _ E). simpl. apply IH.
Qed.

(** ** The barcode slice parser *)

Lemma parse_slices_line_eq (slices : list slice) (line : bytes) :
  parse_slices_line slices line
  = if blank line then inr slices
    else (sl <- slice_of (bytes_strip line) ;; ret (slices ++ [sl])).
Proof.
  unfold parse_slices_line, blank, slice_of.
  destruct (bytes_strip line) as [|c s]; [reflexivity|].
  destruct (unpack2 (bytes_split ":" (c :: s))) as [e|[header body]];
    cbn [bind]; [reflexivity|].
  destruct (unpack2 (bytes_split " " header)) as [e|[angle offset]];
    cbn [bind]; [reflexivity|].
  destruct (foldM parse_bars_step (bytes_split "," body) []) as [e|bars];
    cbn [bind]; [reflexivity|].
  destruct (py_float angle) as [e|a]; cbn [bind]; [reflexivity|].
  destruct (py_float offset) as [e|o]; reflexivity.
Qed.

Lemma parse_slices_line_spec_of_code (slices : list slice) (line : bytes) (r : list slice) :
  parse_slices_line slices line = inr r -> parse_slices_line_spec slices line = inr r.
Proof.
  unfold parse_slices_line, parse_slices_line_spec.
  destruct (bytes_strip line) as [|c s]; [auto|].
  destruct (unpack2 (bytes_split ":" (c :: s))) as [e|[header body]] eqn:E1;
    cbn [bind]; [discriminate|].
  apply unpack2_length in E1. unfold bytes_split in E1.
  rewrite (split_on_pair _ _ _ E1). cbn [unpack2 bind ret].
  destruct (unpack2 (bytes_split " " header)) as [e|[angle offset]] eqn:E2;
    cbn [bind]; [discriminate|].
  apply unpack2_length in E2. unfold bytes_split in E2.
  rewrite (split_on_pair _ _ _ E2). cbn [unpack2 bind ret]. auto.
Qed.

Lemma parse_slices_from (text : list bytes) (slices : list slice) :
  foldM parse_slices_line text slices
  = (r <- foldM parse_slices_line text [] ;; ret (slices ++ r)).
Proof.
  revert slices. induction text as [|line text IH]; intros slices.
  - cbn [foldM bind ret]. now rewrite app_nil_r.
  - cbn [foldM]. rewrite !parse_slices_line_eq. destruct (blank line).
    + cbn [bind]. apply IH.
    + destruct (slice_of (bytes_strip line)) as [e|sl]; cbn [bind ret]; [reflexivity|].
      rewrite (IH (slices ++ [sl])), (IH ([] ++ [sl])).
      destruct (foldM parse_slices_line text []) as [e|r]; cbn [bind ret]; [reflexivity|].
      now rewrite <- app_assoc.
Qed.

Lemma parse_slices_count (text : list bytes) (r : list slice) :
  _parse_slices text = inr r ->
  length r = length (filter (fun line => negb (blank line)) text).
Proof.
  unfold _parse_slices. revert r. induction text as [|line text IH]; intros r.
  - now intros [= <-].
  - cbn [foldM filter]. rewrite parse_slices_line_eq. destruct (blank line); cbn [bind negb].
    + apply IH.
    + destruct (slice_of (bytes_strip line)) as [e|sl]; cbn [bind ret]; [discriminate|].
      rewrite parse_slices_from.
      destruct (foldM parse_slices_line text []) as [e|r']; cbn [bind ret]; [discriminate|].
      intros [= <-]. cbn [app length]. now rewrite (IH r' eq_refl).
Qed.

Lemma slice_of_shape (line : bytes) (sl : slice) :
  slice_of line = inr sl ->
  occurrences ":" line = 1%nat /\ occurrences " " (header_of line) = 1%nat.
Proof.
  unfold slice_of, occurrences, header_of.
  destruct (unpack2 (bytes_split ":" line)) as [e|[header body]] eqn:E1;
    cbn [bind]; [discriminate|].
  destruct (unpack2 (bytes_split " " header)) as [e|[angle offset]] eqn:E2;
    cbn [bind]; [discriminate|].
  intros _. apply unpack2_length in E1, E2. rewrite E1. cbn [hd].
  pose proof (split_on_length byte_eqb ":"%char line) as L1.
  pose proof (split_on_length byte_eqb " "%char header) as L2.
  unfold bytes_split in E1, E2. rewrite E1 in L1. rewrite E2 in L2.
  cbn [length] in L1, L2. split; congruence.
Qed.

Lemma nonblank_lines_cons (line : bytes) (text : list bytes) :
  nonblank_lines (line :: text)
  = if blank line then nonblank_lines text else line :: nonblank_lines text.
Proof. unfold nonblank_lines. simpl. now destruct (blank line). Qed.

Lemma parse_bars_from (parts : list bytes) (acc : list barcode.Bar) :
  foldM parse_bars_step parts acc
  = (bs <- mapM parse_bar (map bytes_strip (nonblank_lines parts)) ;; ret (acc ++ bs)).
Proof.
  revert acc. induction parts as [|part parts IH]; intros acc.
  - cbn. now rewrite app_nil_r.
  - rewrite nonblank_lines_cons. cbn [foldM]. unfold parse_bars_step at 1, blank.
    destruct (bytes_strip part) as [|c s] eqn:E; cbn [bind ret].
    + apply IH.
    + cbn [map mapM]. rewrite E.
      destruct (parse_bar (c :: s)) as [e|bar]; cbn [bind ret]; [reflexivity|].
      rewrite IH.
      destruct (mapM parse_bar (map bytes_strip (nonblank_lines parts))) as [e|bs];
        cbn [bind ret]; [reflexivity|].
      now rewrite <- app_assoc.
Qed.

Lemma parse_bars_mapM (parts : list bytes) :
  foldM parse_bars_step parts []
  = mapM parse_bar (map bytes_strip (nonblank_lines parts)).
Proof.
  rewrite parse_bars_from. destruct (mapM parse_bar _) as [e|bs]; reflexivity.
Qed.

Lemma unpack2_wrong_length {A} (l : list A) :
  length l <> 2%nat -> unpack2 l = inl BuiltinValueError.
Proof.
  destruct l as [|a [|b [|c l]]]; simpl; intros H; try reflexivity. now destruct H.
Qed.

Lemma slice_of_not_shaped (line : bytes) :
  slice_shaped line = false -> slice_of line = inl BuiltinValueError.
Proof.
  unfold slice_shaped, slice_of, occurrences, header_of, bytes_split. intros H.
  pose proof (split_on_length byte_eqb ":"%char line) as L1.
  destruct (split_on byte_eqb ":"%char line) as [|header [|body [|x l]]];
    cbn [unpack2 bind raise ret]; try reflexivity.
  cbn [length hd] in L1, H. injection L1 as L1. rewrite <- L1 in H. cbn [Nat.eqb andb] in H.
  apply Nat.eqb_neq in H.
  rewrite unpack2_wrong_length; [reflexivity|].
  pose proof (split_on_length byte_eqb " "%char header) as L2.
  unfold bytes. lia.
Qed.

Lemma slice_of_shaped (line : bytes) :
  slice_shaped line = true ->
  exists header body angle offset,
    bytes_split ":" line = [header; body]
    /\ bytes_split " " header = [angle; offset]
    /\ slice_of line
       = (bars <- mapM parse_bar
                    (map bytes_strip (nonblank_lines (bytes_split "," body))) ;;
          a <- py_float angle ;;
          o <- py_float offset ;;
          ret ((a, o), {| barcode.bars := bars |})).
Proof.
  unfold slice_shaped, slice_of, occurrences, header_of, bytes_split. intros H.
  apply andb_true_iff in H. destruct H as [H1 H2]. apply Nat.eqb_eq in H1, H2.
  pose proof (split_on_length byte_eqb ":"%char line) as L1. rewrite H1 in L1.
  destruct (split_on byte_eqb ":"%char line) as [|header [|body [|x l]]];
    try discriminate L1.
  cbn [hd] in H2.
  pose proof (split_on_length byte_eqb " "%char header) as L2. rewrite H2 in L2.
  destruct (split_on byte_eqb " "%char header) as [|angle [|offset [|y l']]] eqn:E2;
    try discriminate L2.
  exists header, body, angle, offset. split; [reflexivity|]. split; [exact E2|].
  cbn [unpack2 bind ret]. rewrite E2. cbn [unpack2 bind ret].
  now rewrite parse_bars_mapM.
Qed.

Lemma parse_slices_mapM (text : list bytes) :
  _parse_slices text = mapM slice_of (map bytes_strip (nonblank_lines text)).
Proof.
  unfold _parse_slices. induction text as [|line text IH]; [reflexivity|].
  cbn [foldM]. rewrite parse_slices_line_eq, nonblank_lines_cons.
  destruct (blank line); cbn [bind]; [exact IH|].
  cbn [map mapM]. destruct (slice_of (bytes_strip line)) as [e|sl]; cbn [bind ret];
    [reflexivity|].
  rewrite parse_slices_from, IH.
  destruct (mapM slice_of _) as [e|r]; reflexivity.
Qed.

(** C2, as the code has it.  The parser splits a non-blank, stripped line at
    every colon and needs exactly two pieces, header and body; it splits the
    header at every space and needs exactly two pieces, angle and offset.  A
    line with another number of colons, or with another number of spaces
    before its colon, raises the ValueError of the unpacking, and so does
    every text that contains such a line after lines that parse.  A line of
    that shape gives the bars of the non-blank tokens of its body, each read
    as birth, death and a multiplicity without its first character, and then
    the floats of angle and offset; the floats are those of [float],
    infinities included.  So when the parser returns, every non-blank line had
    one colon and one space in its header, and the result is the one that a
    single split at the first colon and at the first space gives.  The line of
    the specification yields one slice keyed (0, 0) with the bars (1, 2, 1)
    and (3, 4, 2).  There is one pair per non-blank line, in the order of the
    lines. *)
Theorem C2_parse_slices :
  _parse_slices [bt "0.0 0.0: 1.0 2.0 m1, 3.0 4.0 m2"]
  = inr [((float_of_Q 0, float_of_Q 0),
          {| barcode.bars :=
               [{| barcode.birth := float_of_Q 1; barcode.death := float_of_Q 2;
                   barcode.multiplicity := 1 |};
                {| barcode.birth := float_of_Q 3; barcode.death := float_of_Q 4;
                   barcode.multiplicity := 2 |}] |})]
  /\ _parse_slices [bt "90 0.5: 0 inf m1, 0.25 Infinity x2,"]
     = inr [((float_of_Q 90, float_of_Q (1 # 2)),
             {| barcode.bars :=
                  [{| barcode.birth := float_of_Q 0; barcode.death := S754_infinity false;
                      barcode.multiplicity := 1 |};
                   {| barcode.birth := float_of_Q (1 # 4);
                      barcode.death := S754_infinity false;
                      barcode.multiplicity := 2 |}] |})]
  /\ (forall text,
        _parse_slices text = mapM slice_of (map bytes_strip (nonblank_lines text)))
  /\ (forall line,
        slice_shaped line = false -> slice_of line = inl BuiltinValueError)
  /\ (forall line,
        slice_shaped line = true ->
        exists header body angle offset,
          bytes_split ":" line = [header; body]
          /\ bytes_split " " header = [angle; offset]
          /\ slice_of line
             = (bars <- mapM parse_bar
                          (map bytes_strip (nonblank_lines (bytes_split "," body))) ;;
                a <- py_float angle ;;
                o <- py_float offset ;;
                ret ((a, o), {| barcode.bars := bars |})))
  /\ (forall pre line post r,
        _parse_slices pre = inr r ->
        blank line = false ->
        slice_shaped (bytes_strip line) = false ->
        _parse_slices (pre ++ line :: post) = inl BuiltinValueError)
  /\ (forall text r,
        _parse_slices text = inr r ->
        _parse_slices_spec text = inr r
        /\ length r = length (filter (fun line => negb (blank line)) text))
  /\ (forall slices line r,
        parse_slices_line slices line = inr r ->
        if blank line then r = slices
        else occurrences ":" (bytes_strip line) = 1%nat
             /\ occurrences " " (header_of (bytes_strip line)) = 1%nat
             /\ exists sl, slice_of (bytes_strip line) = inr sl /\ r = slices ++ [sl])
  /\ (forall t1 t2 r1 r2,
        _parse_slices t1 = inr r1 -> _parse_slices t2 = inr r2 ->
        _parse_slices (t1 ++ t2) = inr (r1 ++ r2)).
Proof.
  split; [vm_compute; reflexivity|]. split; [vm_compute; reflexivity|].
  split; [exact parse_slices_mapM|]. split; [exact slice_of_not_shaped|].
  split; [exact slice_of_shaped|]. split; [|split; [|split]].
  - intros pre line post r Hpre Hb Hs. unfold _parse_slices in *.
    rewrite foldM_app, Hpre. cbn [bind foldM].
    rewrite parse_slices_line_eq, Hb, (slice_of_not_shaped _ Hs). reflexivity.
  - intros text r H. split.
    + revert H. unfold _parse_slices, _parse_slices_spec. apply foldM_mono.
      intros st x st'. apply parse_slices_line_spec_of_code.
    + now apply parse_slices_count.
  - intros slices line r. rewrite parse_slices_line_eq. destruct (blank line).
    + now intros [= <-].
    + destruct (slice_of (bytes_strip line)) as [e|sl] eqn:E; cbn [bind ret];
        [discriminate|].
      intros [= <-]. destruct (slice_of_shape _ E) as [H1 H2].
      split; [exact H1|]. split; [exact H2|]. now exists sl.
  - intros t1 t2 r1 r2 H1 H2. unfold _parse_slices in *.
    rewrite foldM_app, H1. cbn [bind]. rewrite parse_slices_from, H2. reflexivity.
Qed.

(** The claim describes a single split at the first colon and at the first
    space.  With two spaces between angle and offset, or with a space before
    the colon, the parser so described returns a slice: the second piece of
    the header is a float with white space around it.  The code, which splits
    at every space and needs exactly two pieces, raises ValueError. *)
Lemma C2_counterexample_split_once :
  (_parse_slices [bt "0  0: 1 2 m1"] = inl BuiltinValueError
   /\ _parse_slices_spec [bt "0  0: 1 2 m1"]
      = inr [((float_of_Q 0, float_of_Q 0),
              {| barcode.bars :=
                   [{| barcode.birth := float_of_Q 1; barcode.death := float_of_Q 2;
                       barcode.multiplicity := 1 |}] |})])
  /\ (_parse_slices [bt "0 0 : 1 2 m1"] = inl BuiltinValueError
      /\ _parse_slices_spec [bt "0 0 : 1 2 m1"]
         = inr [((float_of_Q 0, float_of_Q 0),
                 {| barcode.bars :=
                      [{| barcode.birth := float_of_Q 1; barcode.death := float_of_Q 2;
                          barcode.multiplicity := 1 |}] |})]).
Proof. repeat split; vm_compute; reflexivity. Qed.

Lemma C2_witness :
  _parse_slices ([bt "0 0: 1 inf m1,"; bt "  "] ++ bt " 1 2 3: 1 2 m1 " :: [bt "1 2:"])
  = inl BuiltinValueError.
Proof.
  refine (proj1 (proj2 (proj2 (proj2 (proj2 (proj2 C2_parse_slices)))))
            [bt "0 0: 1 inf m1,"; bt "  "] (bt " 1 2 3: 1 2 m1 ") [bt "1 2:"] _ _ _ _).
  - vm_compute. reflexivity.
  - reflexivity.
  - reflexivity.
Defined.

(** * Further properties *)

(** ** PointCloud: the computed scale bound *)

(** X1.  The computed max_dist is never negative, it bounds the absolute
    value of every coordinate of every point, and it bounds the difference of
    any two coordinates: no two points are further apart than max_dist in any
    coordinate. *)
Theorem X1_calc_max_dist_bounds (pts : list Point.t) :
  (0 <= PointCloud._calc_max_dist pts)%Q
  /\ (forall c, In c (all_coords pts) -> (Qabs c <= PointCloud._calc_max_dist pts)%Q)
  /\ (forall c d, In c (all_coords pts) -> In d (all_coords pts) ->
                  (Qabs (c - d) <= PointCloud._calc_max_dist pts)%Q).
Proof.
  destruct (calc_max_dist_extremes pts) as (lo & hi & (Hlo & Hhi & Hb) & _ & Heq).
  destruct (Hb 0%Q (or_introl eq_refl)) as [Hlo0 Hhi0].
  split; [rewrite Heq; lra|]. split.
  - intros c Hc. destruct (Hb c (or_intror Hc)). rewrite Heq.
    apply Qabs_Qle_condition. split; lra.
  - intros c d Hc Hd. destruct (Hb c (or_intror Hc)), (Hb d (or_intror Hd)).
    rewrite Heq. apply Qabs_Qle_condition. split; lra.
Qed.

Lemma X1_witness :
  (Qabs (-4 - 3) <= PointCloud._calc_max_dist cloud0)%Q.
Proof.
  apply (proj2 (proj2 (X1_calc_max_dist_bounds cloud0))); simpl; auto.
Defined.

Lemma extremes_unique (s t : list Q) (lo hi lo' hi' : Q) :
  (forall c, In c s -> exists d, In d t /\ (c == d)%Q) ->
  (forall d, In d t -> exists c, In c s /\ (c == d)%Q) ->
  extremes s lo hi -> extremes t lo' hi' -> (lo == lo')%Q /\ (hi == hi')%Q.
Proof.
  intros Hst Hts (Hlo & Hhi & Hb) (Hlo' & Hhi' & Hb').
  destruct (Hst lo Hlo) as (a & Ha & Ea). destruct (Hst hi Hhi) as (b & Hb1 & Eb).
  destruct (Hts lo' Hlo') as (a' & Ha' & Ea'). destruct (Hts hi' Hhi') as (b' & Hb1' & Eb').
  destruct (Hb' a Ha), (Hb' b Hb1), (Hb a' Ha'), (Hb b' Hb1').
  split; lra.
Qed.

(** X2.  The computed max_dist depends only on which numbers occur as
    coordinates: point clouds with the same coordinate values, in any order,
    grouping or multiplicity, get the same max_dist. *)
Theorem X2_calc_max_dist_depends_on_values (pts pts' : list Point.t) :
  (forall c, In c (all_coords pts) <-> In c (all_coords pts')) ->
  (PointCloud._calc_max_dist pts == PointCloud._calc_max_dist pts')%Q.
Proof.
  intros H.
  destruct (calc_max_dist_extremes pts) as (lo & hi & Hx & _ & Heq).
  destruct (calc_max_dist_extremes pts') as (lo' & hi' & Hx' & _ & Heq').
  assert (E : (lo == lo')%Q /\ (hi == hi')%Q).
  { apply (extremes_unique (s := 0%Q :: all_coords pts) (t := 0%Q :: all_coords pts'));
      try assumption.
    - intros c [<- | Hc]; [exists 0%Q | exists c]; split; simpl; auto; try reflexivity.
      right. now apply H.
    - intros c [<- | Hc]; [exists 0%Q | exists c]; split; simpl; auto; try reflexivity.
      right. now apply H. }
  destruct E as [E1 E2]. rewrite Heq, Heq', E1, E2. reflexivity.
Qed.

Lemma X2_witness :
  (PointCloud._calc_max_dist cloud0
   == PointCloud._calc_max_dist (points [[-4; 3; 3]; [2; 1; 1]]%Q (Scalar 0)))%Q.
Proof.
  apply X2_calc_max_dist_depends_on_values. intros c. simpl. tauto.
Defined.

(** X3.  The computed max_dist is zero exactly when every coordinate of
    every point is zero (in particular when there is no coordinate at all). *)
Theorem X3_calc_max_dist_zero (pts : list Point.t) :
  (PointCloud._calc_max_dist pts == 0)%Q
  <-> forall c, In c (all_coords pts) -> (c == 0)%Q.
Proof.
  destruct (calc_max_dist_extremes pts) as (lo & hi & (Hlo & Hhi & Hb) & _ & Heq).
  destruct (Hb 0%Q (or_introl eq_refl)) as [Hlo0 Hhi0].
  rewrite Heq. split.
  - intros Hz c Hc. destruct (Hb c (or_intror Hc)). lra.
  - intros Hall.
    assert (Hl : (lo == 0)%Q) by (destruct Hlo as [<- | Hl]; [reflexivity | now apply Hall]).
    assert (Hh : (hi == 0)%Q) by (destruct Hhi as [<- | Hh]; [reflexivity | now apply Hall]).
    lra.
Qed.

(** ** PointCloud: what construction guarantees *)

Lemma check_dimensions_inv (d : nat) (ps : list Point.t) (k : nat) :
  PointCloud.check_dimensions d k ps = inr tt ->
  forall p, In p ps -> Point.dimension p = d.
Proof.
  revert k. induction ps as [|q ps IH]; intros k H p Hp; [destruct Hp|].
  simpl in H. destruct (Nat.eqb_spec (Point.dimension q) d) as [E|E]; [|discriminate].
  destruct Hp as [<- | Hp]; [exact E | exact (IH _ H p Hp)].
Qed.

Lemma check_dimensions_error (d : nat) (ps : list Point.t) (k : nat) (e : exn) :
  PointCloud.check_dimensions d k ps = inl e ->
  exists i a, a <> d /\ e = ValueError (PointCloud.dimension_message d i a).
Proof.
  revert k. induction ps as [|q ps IH]; intros k H; [discriminate|].
  simpl in H. destruct (Nat.eqb_spec (Point.dimension q) d) as [E|E].
  - exact (IH _ H).
  - injection H as <-. now exists k, (Point.dimension q).
Qed.

Lemma init_outcome (pts : list Point.t) (name comments : option str) (md : option Q) :
  (forall pc, PointCloud.__init__ pts name comments md = inr pc ->
     pts <> []
     /\ PointCloud.points pc = pts
     /\ forall p, In p (PointCloud.points pc) ->
                  Point.dimension p = PointCloud.dimension pc)
  /\ (forall e, PointCloud.__init__ pts name comments md = inl e ->
        (e = IndexError /\ pts = [])
        \/ exists p0 i a, nth_error pts 0 = Some p0 /\ a <> Point.dimension p0
             /\ e = ValueError (PointCloud.dimension_message (Point.dimension p0) i a)).
Proof.
  unfold PointCloud.__init__, index. destruct pts as [|p0 pts]; cbn [nth_error bind ret].
  - split; [discriminate|]. intros e [= <-]. now left.
  - destruct (PointCloud.check_dimensions (Point.dimension p0) 0 (p0 :: pts))
      as [e'|[]] eqn:E; cbn [bind ret].
    + split; [discriminate|]. intros e [= <-]. right.
      destruct (check_dimensions_error _ _ _ E) as (i & a & Ha & ->).
      now exists p0, i, a.
    + split; [|discriminate]. intros pc [= <-]. cbn.
      split; [discriminate|]. split; [reflexivity|].
      exact (check_dimensions_inv _ _ _ E).
Qed.

(** X4.  A PointCloud that was constructed has at least one point, and every
    point has the stored dimension.  Construction raises nothing but
    IndexError, which it raises exactly on the empty sequence, and the
    ValueError of a dimension that differs from the first point's. *)
Theorem X4_point_cloud_invariant
    (pts : list Point.t) (name comments : option str) (md : option Q) :
  (forall pc, PointCloud.__init__ pts name comments md = inr pc ->
     pts <> []
     /\ PointCloud.points pc = pts
     /\ forall p, In p (PointCloud.points pc) ->
                  Point.dimension p = PointCloud.dimension pc)
  /\ (forall e, PointCloud.__init__ pts name comments md = inl e ->
        (e = IndexError /\ pts = [])
        \/ exists p0 i a, nth_error pts 0 = Some p0 /\ a <> Point.dimension p0
             /\ e = ValueError (PointCloud.dimension_message (Point.dimension p0) i a)).
Proof. exact (init_outcome pts name comments md). Qed.

Lemma X4_witness :
  cloud0 <> []
  /\ Point.dimension (Point.__init__ (Scalar 0) [3; -4]%Q) = 2%nat.
Proof.
  destruct (proj1 (X4_point_cloud_invariant cloud0 None None None) _ eq_refl)
    as (Hne & _ & Hdim).
  split; [exact Hne|]. apply Hdim. right. left. reflexivity.
Defined.

(** X5.  [points] makes one point per tuple, in order, all with the given
    appearance and with the tuple as coordinates.  A PointCloud can be
    constructed from them exactly when there is a first tuple and every tuple
    has its length. *)
Theorem X5_points_of_tuples (tuples : list (list Q)) (a : appearance_t)
    (name comments : option str) (md : option Q) :
  map Point.coords (points tuples a) = tuples
  /\ (forall p, In p (points tuples a) -> Point.appearance p = a)
  /\ ((exists pc, PointCloud.__init__ (points tuples a) name comments md = inr pc)
      <-> exists t0 rest, tuples = t0 :: rest
                          /\ forall t, In t rest -> length t = length t0).
Proof.
  split; [|split].
  - unfold points. rewrite map_map. simpl. apply map_id.
  - unfold points. intros p Hp. apply in_map_iff in Hp. now destruct Hp as (t & <- & _).
  - split.
    + intros [pc Hpc].
      destruct (proj1 (init_outcome _ _ _ _) pc Hpc) as (Hne & Hpts & Hdim).
      destruct tuples as [|t0 rest]; [now destruct Hne|].
      exists t0, rest. split; [reflexivity|]. intros t Ht.
      rewrite Hpts in Hdim.
      assert (H0 : Point.dimension (Point.__init__ a t0) = PointCloud.dimension pc)
        by (apply Hdim; now left).
      assert (H1 : Point.dimension (Point.__init__ a t) = PointCloud.dimension pc).
      { apply Hdim. right. unfold points. now apply (in_map (Point.__init__ a)). }
      unfold Point.dimension in H0, H1. simpl in H0, H1. congruence.
    + intros (t0 & rest & -> & Hall).
      unfold PointCloud.__init__, index. cbn [points map nth_error bind ret].
      rewrite (@check_dimensions_ok (length t0) (Point.__init__ a t0 :: map _ rest) 0%nat).
      * cbn [bind]. eexists. reflexivity.
      * intros q [<- | Hq]; [reflexivity|]. apply in_map_iff in Hq.
        destruct Hq as (t & <- & Ht). unfold Point.dimension. simpl. now apply Hall.
Qed.

Lemma X3_witness :
  (PointCloud._calc_max_dist (points [[0; 0]; [0; 0]]%Q (Scalar 0)) == 0)%Q.
Proof.
  apply (proj2 (X3_calc_max_dist_zero (points [[0; 0]; [0; 0]]%Q (Scalar 0)))).
  simpl. intros c H. repeat (destruct H as [<- | H]; [reflexivity|]). destruct H.
Defined.

Lemma X5_witness :
  exists pc, PointCloud.__init__ (points [[1; 2]; [3; -4]]%Q (Scalar 0)) None None None
             = inr pc.
Proof.
  apply (proj2 (proj2 (proj2 (X5_points_of_tuples [[1; 2]; [3; -4]]%Q (Scalar 0)
                                None None None)))).
  exists [1; 2]%Q, [[3; -4]%Q]. split; [reflexivity|].
  intros t [<- | []]. reflexivity.
Defined.

(** ** Streams: actions that only append *)

Lemma appends_ret {A} (a : A) : appends (io_ret a).
Proof. intros out. unfold io_ret. simpl. now rewrite app_nil_r. Qed.

Lemma appends_lift {A} (r : result A) : appends (lift r).
Proof. intros out. unfold lift. simpl. now rewrite app_nil_r. Qed.

Lemma appends_write (s : str) : appends (write s).
Proof. intros out. reflexivity. Qed.

Lemma appends_writelines (l : list str) : appends (writelines l).
Proof. intros out. reflexivity. Qed.

Lemma appends_bind {A B} (m : io A) (k : A -> io B) :
  appends m -> (forall a, appends (k a)) -> appends (io_bind m k).
Proof.
  intros Hm Hk out. unfold io_bind. rewrite (Hm out).
  destruct (m []) as [w [e|a]]; simpl.
  - reflexivity.
  - rewrite (Hk a (out ++ w)), (Hk a w). simpl. now rewrite app_assoc.
Qed.

Lemma appends_for_each {A} (body : A -> io unit) (l : list A) :
  (forall x, appends (body x)) -> appends (for_each body l).
Proof.
  intros H. induction l as [|x l IH]; simpl.
  - apply appends_ret.
  - apply appends_bind; [apply H | intros _; exact IH].
Qed.

Ltac appends_steps :=
  repeat first
    [ apply appends_bind; [|intros ?]
    | apply appends_for_each; intros ?
    | apply appends_write | apply appends_writelines
    | apply appends_lift | apply appends_ret ].

Lemma point_cloud_save_point_appends (name : option str) (p : Point.t) :
  appends (PointCloud.save_point name p).
Proof.
  unfold PointCloud.save_point. destruct name; unfold skip; appends_steps.
Qed.

Lemma bifiltration_save_point_appends (p : Point.t) : appends (Bifiltration.save_point p).
Proof. unfold Bifiltration.save_point. appends_steps. Qed.

(** X6.  [PointCloud.save] and [Bifiltration.save] only add to the stream
    they are given: whatever was written before is still there, in front, and
    what they add, and whether they raise, does not depend on it.  This holds
    for every object, also for one on which [save] raises. *)
Theorem X6_save_appends (pc : PointCloud.t) (bf : Bifiltration.t) :
  appends (PointCloud.save pc) /\ appends (Bifiltration.save bf).
Proof.
  split.
  - unfold PointCloud.save.
    apply appends_bind; [destruct (truthy _); unfold skip; appends_steps | intros _].
    do 3 (apply appends_bind; [apply appends_write | intros _]).
    apply appends_bind; [destruct (PointCloud.second_param_name pc); appends_steps | intros _].
    apply appends_bind; [|intros _; apply appends_write].
    apply appends_for_each. intros p. apply point_cloud_save_point_appends.
  - unfold Bifiltration.save.
    do 3 (apply appends_bind; [apply appends_write | intros _]).
    apply appends_bind; [|intros _; apply appends_write].
    apply appends_for_each. intros p. apply bifiltration_save_point_appends.
Qed.

(** ** Loops that stop at an exception *)

Lemma for_each_raises {A} (body : A -> io unit) (f : A -> list str)
    (pre post : list A) (x : A) (g : list str) (e : exn) :
  (forall y, In y pre -> forall o, body y o = (o ++ f y, inr tt)) ->
  (forall o, body x o = (o ++ g, inl e)) ->
  forall out, for_each body (pre ++ x :: post) out = (out ++ flat_map f pre ++ g, inl e).
Proof.
  intros Hpre Hx. induction pre as [|y pre IH]; intros out; simpl.
  - unfold io_bind. now rewrite Hx.
  - unfold io_bind. rewrite (Hpre y (or_introl eq_refl)).
    rewrite IH by (intros z Hz; apply Hpre; now right).
    now rewrite <- !app_assoc.
Qed.

Lemma first_tuple (pts : list Point.t) :
  (forall p, In p pts -> scalar p)
  \/ exists pre p post vs,
       pts = pre ++ p :: post /\ (forall q, In q pre -> scalar q)
       /\ Point.appearance p = Tuple vs.
Proof.
  induction pts as [|p pts IH].
  - left. intros p [].
  - destruct (Point.appearance p) as [v|vs] eqn:E.
    + destruct IH as [IH | (pre & q & post & vs & -> & Hpre & Hq)].
      * left. intros q [<- | Hq]; [now exists v | now apply IH].
      * right. exists (p :: pre), q, post, vs. split; [reflexivity|]. split; [|exact Hq].
        intros r [<- | Hr]; [now exists v | now apply Hpre].
    + right. exists [], p, pts, vs. split; [reflexivity|]. split; [intros q []|exact E].
Qed.

Lemma save_point_raises (n : str) (p : Point.t) (vs : list Q) (o : stream) :
  Point.appearance p = Tuple vs ->
  PointCloud.save_point (Some n) p o = (o ++ coord_tokens p, inl TypeError).
Proof.
  intros H. unfold PointCloud.save_point, io_bind. rewrite save_coords.
  unfold lift. rewrite H. reflexivity.
Qed.

Lemma point_cloud_save_cases (pc : PointCloud.t) (out : stream) :
  (PointCloud.second_param_name pc = None
   \/ (forall p, In p (PointCloud.points pc) -> scalar p) ->
   PointCloud.save pc out
   = (out ++ comment_lines (PointCloud.comments pc)
          ++ [u "points" ++ [LF];
              str_of_nat (PointCloud.dimension pc) ++ [LF];
              format_f (PointCloud.max_dist pc) ++ [LF];
              match PointCloud.second_param_name pc with
              | Some n => n ++ [LF]
              | None => u "no function" ++ [LF]
              end]
          ++ flat_map (point_line (match PointCloud.second_param_name pc with
                                   | Some _ => true
                                   | None => false
                                   end)) (PointCloud.points pc)
          ++ [[LF]],
      inr tt))
  /\ (forall n pre p post vs,
        PointCloud.second_param_name pc = Some n ->
        PointCloud.points pc = pre ++ p :: post ->
        (forall q, In q pre -> scalar q) ->
        Point.appearance p = Tuple vs ->
        snd (PointCloud.save pc out) = inl TypeError).
Proof.
  assert (Hhead :
    PointCloud.save pc out
    = io_bind (for_each (PointCloud.save_point (PointCloud.second_param_name pc))
                 (PointCloud.points pc)) (fun _ => write [LF])
        (out ++ comment_lines (PointCloud.comments pc)
             ++ [u "points" ++ [LF];
                 str_of_nat (PointCloud.dimension pc) ++ [LF];
                 format_f (PointCloud.max_dist pc) ++ [LF];
                 match PointCloud.second_param_name pc with
                 | Some n => n ++ [LF]
                 | None => u "no function" ++ [LF]
                 end])).
  { unfold PointCloud.save.
    assert (Hc : forall o (k : io unit),
      io_bind (if truthy (PointCloud.comments pc)
               then writelines (map (fun line => u "# " ++ line ++ [LF])
                      (str_split LF (match PointCloud.comments pc with
                                     | Some c => c | None => [] end)))
               else skip) (fun _ => k) o = k (o ++ comment_lines (PointCloud.comments pc))).
    { intros o k. unfold io_bind, comment_lines.
      destruct (PointCloud.comments pc) as [[|c r]|]; simpl; unfold skip, io_ret;
        rewrite ?app_nil_r; reflexivity. }
    rewrite Hc, !write_then.
    destruct (PointCloud.second_param_name pc); rewrite write_then;
      rewrite <- !app_assoc; reflexivity. }
  split.
  - intros H. rewrite Hhead. unfold io_bind.
    rewrite (for_each_writes (PointCloud.save_point (PointCloud.second_param_name pc))
               (point_line (match PointCloud.second_param_name pc with
                            | Some _ => true | None => false end))).
    + unfold write. rewrite <- !app_assoc. reflexivity.
    + intros p Hp o. apply save_point_writes. intros Hn.
      destruct H as [H|H]; [contradiction | now apply H].
  - intros n pre p post vs Hn Hpts Hpre Hp. rewrite Hhead, Hn, Hpts. unfold io_bind.
    rewrite (@for_each_raises _ (PointCloud.save_point (Some n)) (point_line true)
               pre post p (coord_tokens p) TypeError).
    + reflexivity.
    + intros q Hq o. rewrite save_point_writes; [reflexivity|]. intros _. now apply Hpre.
    + intros o. now apply save_point_raises with (vs := vs).
Qed.

(** X7.  Whenever [PointCloud.save] returns normally, no name is stored or
    the appearance of every point is a number, and the stream has gained the
    comment lines, the four header lines, one line per point and an empty
    line.  With a name stored, a point whose appearance is a sequence makes
    [save] raise.  This holds for every PointCloud object, also one whose
    fields were set after construction. *)
Theorem X7_point_cloud_save_outcome (pc : PointCloud.t) (out : stream) :
  (forall out',
     PointCloud.save pc out = (out', inr tt) ->
     (PointCloud.second_param_name pc = None
      \/ forall p, In p (PointCloud.points pc) -> scalar p)
     /\ out' = out ++ comment_lines (PointCloud.comments pc)
                   ++ [u "points" ++ [LF];
                       str_of_nat (PointCloud.dimension pc) ++ [LF];
                       format_f (PointCloud.max_dist pc) ++ [LF];
                       match PointCloud.second_param_name pc with
                       | Some n => n ++ [LF]
                       | None => u "no function" ++ [LF]
                       end]
                   ++ flat_map (point_line (match PointCloud.second_param_name pc with
                                            | Some _ => true
                                            | None => false
                                            end)) (PointCloud.points pc)
                   ++ [[LF]])
  /\ (forall n p vs,
        PointCloud.second_param_name pc = Some n ->
        In p (PointCloud.points pc) ->
        Point.appearance p = Tuple vs ->
        exists e, snd (PointCloud.save pc out) = inl e).
Proof.
  destruct (point_cloud_save_cases pc out) as [Hok Hfail].
  assert (Hcases :
    (PointCloud.second_param_name pc = None
     \/ forall p, In p (PointCloud.points pc) -> scalar p)
    \/ snd (PointCloud.save pc out) = inl TypeError).
  { destruct (PointCloud.second_param_name pc) as [n|] eqn:En; [|left; now left].
    destruct (first_tuple (PointCloud.points pc))
      as [Hall | (pre & p & post & vs & Hpts & Hpre & Hp)].
    - left. now right.
    - right. exact (Hfail n pre p post vs eq_refl Hpts Hpre Hp). }
  split.
  - intros out' H. destruct Hcases as [Hc | Hc].
    + split; [exact Hc|]. rewrite (Hok Hc) in H. now injection H as <-.
    + rewrite H in Hc. discriminate Hc.
  - intros n p vs Hn Hp Happ. destruct Hcases as [[Hc | Hc] | Hc].
    + congruence.
    + destruct (Hc p Hp) as [v Hv]. congruence.
    + now exists TypeError.
Qed.

Lemma X7_witness :
  exists e, snd (PointCloud.save cloud_mixed []) = inl e.
Proof.
  refine (proj2 (X7_point_cloud_save_outcome cloud_mixed []) (u "birth")
            (Point.__init__ (Tuple [0; 0]) [2]%Q) [0; 0]%Q eq_refl _ eq_refl).
  right. left. reflexivity.
Defined.

(** ** Bifiltration *)

Lemma forallb_true_or_first {A} (f : A -> bool) (l : list A) :
  forallb f l = true \/ exists x, In x l /\ f x = false.
Proof.
  induction l as [|x l IH]; simpl; [now left|].
  destruct (f x) eqn:E.
  - destruct IH as [IH | (y & Hy & Ey)]; [now left | right; exists y; auto].
  - right. exists x. auto.
Qed.

(** X8.  A Bifiltration is constructed exactly when the appearance of every
    point is a sequence of two numbers; it then stores the labels and the
    points as given.  Otherwise construction raises the ValueError of the
    2-tuple message, which does not tell which point is at fault. *)
Theorem X8_bifiltration_init (x_label y_label : str) (pts : list Point.t) :
  ((forall p, In p pts -> exists a b, Point.appearance p = Tuple [a; b]) ->
   Bifiltration.__init__ x_label y_label pts
   = inr {| Bifiltration.x_label := x_label; Bifiltration.y_label := y_label;
            Bifiltration.points := pts |})
  /\ ((exists p, In p pts /\ forall a b, Point.appearance p <> Tuple [a; b]) ->
      Bifiltration.__init__ x_label y_label pts
      = inl (ValueError
          (u "For a bifiltration, points must have a 2-tuple in the appearance field"))).
Proof.
  unfold Bifiltration.__init__. split.
  - intros H.
    replace (forallb (fun p => Bifiltration.is_pair (Point.appearance p)) pts) with true;
      [reflexivity|].
    symmetry. apply forallb_forall. intros p Hp. destruct (H p Hp) as (a & b & ->).
    reflexivity.
  - intros (p & Hp & Hne).
    replace (forallb (fun p => Bifiltration.is_pair (Point.appearance p)) pts) with false;
      [reflexivity|].
    symmetry. apply not_true_is_false. intros Hall.
    rewrite forallb_forall in Hall. specialize (Hall p Hp).
    destruct (Point.appearance p) as [v|[|a [|b [|c vs]]]]; try discriminate.
    now apply (Hne a b).
Qed.

Lemma X8_witness :
  Bifiltration.__init__ (u "x") (u "y") (points [[1; 2]]%Q (Tuple [3; 4]))
  = inr {| Bifiltration.x_label := u "x"; Bifiltration.y_label := u "y";
           Bifiltration.points := points [[1; 2]]%Q (Tuple [3; 4]) |}.
Proof.
  apply (proj1 (X8_bifiltration_init (u "x") (u "y") (points [[1; 2]]%Q (Tuple [3; 4])))).
  intros p [<- | []]. now exists 3%Q, 4%Q.
Defined.

Lemma spaced_tokens_writes (vs : list Q) (out : stream) :
  for_each (fun v => io_bind (write (format_f v ++ u " ")) (fun _ => write (u " "))) vs out
  = (out ++ spaced_tokens vs, inr tt).
Proof.
  unfold spaced_tokens. apply for_each_writes.
  intros c _ o. unfold io_bind, write. simpl. now rewrite <- app_assoc.
Qed.

Lemma first_scalar (pts : list Point.t) :
  (forall p, In p pts -> exists vs, Point.appearance p = Tuple vs)
  \/ exists pre p post v,
       pts = pre ++ p :: post
       /\ (forall q, In q pre -> exists vs, Point.appearance q = Tuple vs)
       /\ Point.appearance p = Scalar v.
Proof.
  induction pts as [|p pts IH].
  - left. intros p [].
  - destruct (Point.appearance p) as [v|vs] eqn:E.
    + right. exists [], p, pts, v. split; [reflexivity|]. split; [intros q []|exact E].
    + destruct IH as [IH | (pre & q & post & v & -> & Hpre & Hq)].
      * left. intros q [<- | Hq]; [now exists vs | now apply IH].
      * right. exists (p :: pre), q, post, v. split; [reflexivity|]. split; [|exact Hq].
        intros r [<- | Hr]; [now exists vs | now apply Hpre].
Qed.

Lemma bifiltration_save_point_writes (p : Point.t) (vs : list Q) (o : stream) :
  Point.appearance p = Tuple vs ->
  Bifiltration.save_point p o = (o ++ bifiltration_line p, inr tt).
Proof.
  intros H. unfold Bifiltration.save_point, bifiltration_line, io_bind.
  rewrite spaced_tokens_writes. unfold lift. rewrite H. cbn [Bifiltration.iterate ret].
  rewrite spaced_tokens_writes. unfold write. now rewrite <- !app_assoc.
Qed.

Lemma bifiltration_save_point_raises (p : Point.t) (v : Q) (o : stream) :
  Point.appearance p = Scalar v ->
  Bifiltration.save_point p o = (o ++ spaced_tokens (Point.coords p), inl TypeError).
Proof.
  intros H. unfold Bifiltration.save_point, io_bind.
  rewrite spaced_tokens_writes. unfold lift. rewrite H. reflexivity.
Qed.

(** X9.  Whenever [Bifiltration.save] returns normally, the appearance of
    every point is a sequence, and the stream has gained the line
    "bifiltration", the two labels, one line per point (each coordinate and
    then each appearance value as a "%f " token followed by one more space)
    and a final empty line.  A point whose appearance is a number makes
    [save] raise. *)
Theorem X9_bifiltration_save (bf : Bifiltration.t) (out : stream) :
  (forall out',
     Bifiltration.save bf out = (out', inr tt) ->
     (forall p, In p (Bifiltration.points bf) -> exists vs, Point.appearance p = Tuple vs)
     /\ out' = out ++ [u "bifiltration" ++ [LF];
                       Bifiltration.x_label bf ++ [LF];
                       Bifiltration.y_label bf ++ [LF]]
                   ++ flat_map bifiltration_line (Bifiltration.points bf) ++ [[LF]])
  /\ (forall p v,
        In p (Bifiltration.points bf) ->
        Point.appearance p = Scalar v ->
        exists e, snd (Bifiltration.save bf out) = inl e).
Proof.
  assert (Hcases :
    ((forall p, In p (Bifiltration.points bf) -> exists vs, Point.appearance p = Tuple vs)
     /\ Bifiltration.save bf out
        = (out ++ [u "bifiltration" ++ [LF];
                   Bifiltration.x_label bf ++ [LF];
                   Bifiltration.y_label bf ++ [LF]]
               ++ flat_map bifiltration_line (Bifiltration.points bf) ++ [[LF]], inr tt))
    \/ snd (Bifiltration.save bf out) = inl TypeError).
  { destruct (first_scalar (Bifiltration.points bf))
      as [Hall | (pre & p & post & v & Hpts & Hpre & Hp)];
      [left; split; [exact Hall|] | right];
      unfold Bifiltration.save; rewrite !write_then; unfold io_bind.
    - rewrite (for_each_writes Bifiltration.save_point bifiltration_line).
      + unfold write. rewrite <- !app_assoc. reflexivity.
      + intros p Hp o. destruct (Hall p Hp) as [vs Hvs].
        now apply bifiltration_save_point_writes with (vs := vs).
    - rewrite Hpts.
      rewrite (@for_each_raises _ Bifiltration.save_point bifiltration_line
                 pre post p (spaced_tokens (Point.coords p)) TypeError).
      + reflexivity.
      + intros q Hq o. destruct (Hpre q Hq) as [vs Hvs].
        now apply bifiltration_save_point_writes with (vs := vs).
      + intros o. now apply bifiltration_save_point_raises with (v := v). }
  split.
  - intros out' H. destruct Hcases as [[Hall Hsave] | Hc].
    + split; [exact Hall|]. rewrite Hsave in H. now injection H as <-.
    + rewrite H in Hc. discriminate Hc.
  - intros p v Hp Happ. destruct Hcases as [[Hall _] | Hc].
    + destruct (Hall p Hp) as [vs Hvs]. congruence.
    + now exists TypeError.
Qed.

Lemma X9_witness :
  [u "bifiltration" ++ [LF]; u "x" ++ [LF]; u "y" ++ [LF];
   u "1.000000 "; u " "; u "2.000000 "; u " "; u "3.000000 "; u " ";
   u "4.000000 "; u " "; [LF]; [LF]]
  = [] ++ [u "bifiltration" ++ [LF]; u "x" ++ [LF]; u "y" ++ [LF]]
       ++ flat_map bifiltration_line (points [[1; 2]]%Q (Tuple [3; 4])) ++ [[LF]].
Proof.
  exact (proj2 (proj1 (X9_bifiltration_save
           {| Bifiltration.x_label := u "x"; Bifiltration.y_label := u "y";
              Bifiltration.points := points [[1; 2]]%Q (Tuple [3; 4]) |} []) _ eq_refl)).
Defined.

(** ** MetricSpace: what [save] depends on, and when it returns *)

(** X10.  [MetricSpace.save] starts by truncating the stream, so its result
    does not depend on what the stream held: saving over any content leaves
    the same stream, and saving twice is the same as saving once. *)
Theorem X10_metric_space_save_overwrites (self : MetricSpace.t) (out out' : stream) :
  MetricSpace.save self out = MetricSpace.save self out'
  /\ MetricSpace.save self (fst (MetricSpace.save self out)) = MetricSpace.save self out.
Proof.
  split; rewrite !save_unfold; reflexivity.
Qed.

Lemma mapM_raises {A B} (f : A -> result B) (e : exn) (l : list A) :
  (forall x, In x l -> (exists b, f x = inr b) \/ f x = inl e) ->
  (exists x, In x l /\ f x = inl e) ->
  mapM f l = inl e.
Proof.
  induction l as [|x l IH]; intros Hall (y & Hy & Ey); [destruct Hy|].
  simpl. destruct (Hall x (or_introl eq_refl)) as [[b0 Hb]|Hx].
  - rewrite Hb. cbn [bind]. destruct Hy as [<- | Hy]; [congruence|].
    rewrite IH; [reflexivity | intros z Hz; apply Hall; now right | now exists y].
  - now rewrite Hx.
Qed.

Lemma entry_outcome (m : list (list Q)) (i j : nat) :
  (exists q, entry m i j = inr q) \/ entry m i j = inl IndexError.
Proof.
  unfold entry, index. destruct (nth_error m i) as [row|]; cbn [bind ret]; [|now right].
  destruct (nth_error row j) as [q|]; [left; now exists q | now right].
Qed.

Lemma all_entries_short_row (m : list (list Q)) :
  (exists row, In row m /\ (length row < length m)%nat) ->
  MetricSpace.all_entries m (length m) = inl IndexError.
Proof.
  intros (row & Hrow & Hlen). unfold MetricSpace.all_entries.
  apply mapM_raises; [intros [i j] _; apply entry_outcome|].
  destruct (In_nth m row [] Hrow) as (i & Hi & Hnth).
  exists (i, length row). split; [apply in_index_pairs; lia|].
  unfold entry. cbn [fst snd]. rewrite (index_nth m [] Hi), Hnth. cbn [bind].
  unfold index. now rewrite (proj2 (nth_error_None row (length row)) (Nat.le_refl _)).
Qed.

Lemma wide_or_short (m : list (list Q)) :
  wide m \/ exists row, In row m /\ (length row < length m)%nat.
Proof.
  unfold wide. generalize (length m) as n. intros n.
  induction m as [|r m IH].
  - left. intros row [].
  - destruct IH as [IH | (row & Hrow & Hlt)].
    + destruct (le_lt_dec n (length r)) as [Hle | Hlt].
      * left. intros row [<- | Hrow]; [exact Hle | now apply IH].
      * right. exists r. split; [now left | exact Hlt].
    + right. exists row. split; [now right | exact Hlt].
Qed.

Lemma save_ok_two_rows (self : MetricSpace.t) (out : stream) :
  snd (MetricSpace.save self out) = inr tt ->
  (2 <= length (MetricSpace.distance_matrix self))%nat.
Proof.
  rewrite save_unfold.
  destruct (MetricSpace.distance_matrix self) as [|r0 [|r1 rs]]; simpl.
  - discriminate.
  - unfold MetricSpace.all_entries, entry. simpl.
    destruct (index r0 0) as [e|x]; simpl; discriminate.
  - intros _. lia.
Qed.

(** X11.  Whenever [MetricSpace.save] returns normally, the matrix has at
    least two rows and every row has at least as many entries as there are
    rows.  If a row is shorter than the number of rows, [save] does not
    return normally; when there are no appearance values, it then raises
    IndexError while it collects the entries for the maximum, when only the
    preamble has been written. *)
Theorem X11_metric_space_save_outcome (self : MetricSpace.t) (out : stream) :
  let m := MetricSpace.distance_matrix self in
  (snd (MetricSpace.save self out) = inr tt -> (2 <= length m)%nat /\ wide m)
  /\ ((exists row, In row m /\ (length row < length m)%nat) ->
      (exists e, snd (MetricSpace.save self out) = inl e)
      /\ (MetricSpace.appearance_values self = None ->
          MetricSpace.save self out
          = ([u "metric" ++ [LF]] ++ comment_block (MetricSpace.comment self)
               ++ [u "no function" ++ [LF]; str_of_nat (length m) ++ [LF];
                   MetricSpace.distance_label self ++ [LF]],
             inl IndexError))).
Proof.
  intros m.
  assert (Hshort : (exists row, In row m /\ (length row < length m)%nat) ->
                   MetricSpace.save self out = (preamble self, inl IndexError)).
  { intros H. rewrite save_unfold. fold m. now rewrite (@all_entries_short_row m H). }
  split.
  - intros Hok. destruct (wide_or_short m) as [Hw | Hs].
    + split; [|exact Hw].
      apply (@save_ok_two_rows self out). exact Hok.
    + rewrite (Hshort Hs) in Hok. discriminate.
  - intros Hs. rewrite (Hshort Hs). split; [now exists IndexError|].
    intros Hav. unfold preamble. rewrite Hav. reflexivity.
Qed.

Lemma X11_witness :
  MetricSpace.save metric_ragged []
  = ([u "metric" ++ [LF]; u "no function" ++ [LF]; u "2" ++ [LF]; u "distance" ++ [LF]],
     inl IndexError).
Proof.
  refine (proj2 (proj2 (X11_metric_space_save_outcome metric_ragged []) _) eq_refl).
  exists [0%Q]. split; [right; now left | simpl; lia].
Defined.

(** ** Bounds: the enclosing rectangle *)

Lemma py_min_le (x y : Q) : (py_min x y <= x /\ py_min x y <= y)%Q.
Proof. unfold py_min. destruct (Qltb_spec y x); split; lra. Qed.

Lemma py_max_ge (x y : Q) : (x <= py_max x y /\ y <= py_max x y)%Q.
Proof. unfold py_max. destruct (Qltb_spec x y); split; lra. Qed.

Lemma py_min_glb (x y z : Q) : (z <= x -> z <= y -> z <= py_min x y)%Q.
Proof. unfold py_min. destruct (Qltb y x); auto. Qed.

Lemma py_max_lub (x y z : Q) : (x <= z -> y <= z -> py_max x y <= z)%Q.
Proof. unfold py_max. destruct (Qltb x y); auto. Qed.

Lemma common_bounds_inv (a b ab : Bounds.t Q) :
  Bounds.common_bounds a b = inr ab ->
  indexable a /\ indexable b
  /\ ab = Bounds.__init__
            [py_min (coord (Bounds.lower_left a) 0) (coord (Bounds.lower_left b) 0);
             py_min (coord (Bounds.lower_left a) 1) (coord (Bounds.lower_left b) 1)]
            [py_max (coord (Bounds.upper_right a) 0) (coord (Bounds.upper_right b) 0);
             py_max (coord (Bounds.upper_right a) 1) (coord (Bounds.upper_right b) 1)].
Proof.
  destruct a as [[|a0 [|a1 ta]] [|a2 [|a3 ta']]], b as [[|b0 [|b1 tb]] [|b2 [|b3 tb']]];
    try discriminate.
  intros [= <-]. unfold indexable, coord. simpl. repeat split; lia.
Qed.

Lemma common_bounds_indexable (a b : Bounds.t Q) :
  indexable a -> indexable b -> exists ab, Bounds.common_bounds a b = inr ab.
Proof.
  destruct a as [[|a0 [|a1 ta]] [|a2 [|a3 ta']]], b as [[|b0 [|b1 tb]] [|b2 [|b3 tb']]];
    unfold indexable; simpl; intros [? ?] [? ?]; try lia.
  eexists. reflexivity.
Qed.

(** X12.  When [common_bounds] returns, the result contains both operands,
    and every Bounds that contains both operands contains the result: it is
    the least rectangle around the two, as the docstring says.  The common
    bounds of a rectangle with itself are that rectangle. *)
Theorem X12_common_bounds_is_least_enclosing (a b ab : Bounds.t Q) :
  Bounds.common_bounds a b = inr ab ->
  encloses ab a /\ encloses ab b
  /\ (forall c, encloses c a -> encloses c b -> encloses c ab)
  /\ (rectangle a -> exists aa, Bounds.common_bounds a a = inr aa /\ bounds_eq aa a).
Proof.
  intros H. destruct (common_bounds_inv _ _ H) as (_ & _ & ->).
  unfold encloses. cbn [Bounds.__init__ Bounds.lower_left Bounds.upper_right].
  change (coord (?x :: _) 0) with x. change (coord (_ :: ?y :: _) 1) with y.
  set (l0 := coord (Bounds.lower_left a) 0). set (l1 := coord (Bounds.lower_left a) 1).
  set (r0 := coord (Bounds.upper_right a) 0). set (r1 := coord (Bounds.upper_right a) 1).
  set (l0' := coord (Bounds.lower_left b) 0). set (l1' := coord (Bounds.lower_left b) 1).
  set (r0' := coord (Bounds.upper_right b) 0). set (r1' := coord (Bounds.upper_right b) 1).
  pose proof (py_min_le l0 l0'). pose proof (py_min_le l1 l1').
  pose proof (py_max_ge r0 r0'). pose proof (py_max_ge r1 r1').
  split; [tauto|]. split; [tauto|]. split.
  - intros c (? & ? & ? & ?) (? & ? & ? & ?).
    repeat split; auto using py_min_glb, py_max_lub.
  - intros Ha. destruct (rectangle_inv Ha) as (x0 & x1 & y0 & y1 & ->).
    eexists. split; [reflexivity|]. unfold bounds_eq, corner_eq. simpl.
    unfold py_min, py_max. split; repeat constructor;
      match goal with |- context [Qltb ?x ?x] => destruct (Qltb x x) end; reflexivity.
Qed.

Lemma X12_witness :
  exists ab, Bounds.common_bounds unit_square shifted_square = inr ab
             /\ encloses ab unit_square /\ encloses ab shifted_square.
Proof.
  eexists. split; [reflexivity|].
  destruct (@X12_common_bounds_is_least_enclosing unit_square shifted_square _ eq_refl)
    as (H1 & H2 & _).
  split; assumption.
Defined.

(** X13.  [common_bounds] returns exactly when all four corners have at least
    two coordinates; the only exception it raises is IndexError.  Its result
    always has two coordinates per corner: further coordinates of the operands
    are dropped. *)
Theorem X13_common_bounds_outcome (a b : Bounds.t Q) :
  ((exists ab, Bounds.common_bounds a b = inr ab) <-> indexable a /\ indexable b)
  /\ (forall ab, Bounds.common_bounds a b = inr ab -> rectangle ab)
  /\ (forall e, Bounds.common_bounds a b = inl e -> e = IndexError).
Proof.
  split; [|split].
  - split.
    + intros [ab H]. destruct (common_bounds_inv _ _ H) as (Ha & Hb & _). now split.
    + intros [Ha Hb]. now apply common_bounds_indexable.
  - intros ab H. destruct (common_bounds_inv _ _ H) as (_ & _ & ->). split; reflexivity.
  - intros e.
    destruct a as [[|a0 [|a1 ta]] [|a2 [|a3 ta']]], b as [[|b0 [|b1 tb]] [|b2 [|b3 tb']]];
      simpl; intros [= <-]; reflexivity.
Qed.

Lemma X13_witness :
  Bounds.common_bounds (Bounds.__init__ [1] [2; 3]) unit_square = inl IndexError.
Proof.
  destruct (Bounds.common_bounds (Bounds.__init__ [1] [2; 3]) unit_square) as [e|ab] eqn:E.
  - now rewrite (proj2 (proj2 (X13_common_bounds_outcome
                   (Bounds.__init__ [1] [2; 3]) unit_square)) e E).
  - discriminate E.
Defined.

(** ** Dimensions: equality *)

Lemma seq_eqb_Forall2 (s t : list Q) :
  seq_eqb Qeq_bool s t = true <-> Forall2 Qeq s t.
Proof.
  revert t. induction s as [|x s IH]; intros [|y t]; simpl.
  - split; [constructor | reflexivity].
  - split; [discriminate | intros H; inversion H].
  - split; [discriminate | intros H; inversion H].
  - rewrite andb_true_iff, Qeq_bool_iff, IH. split.
    + intros [? ?]. now constructor.
    + intros H. inversion H. now split.
Qed.

Lemma Forall2_Qeq_refl (s : list Q) : Forall2 Qeq s s.
Proof. induction s; constructor; [reflexivity | assumption]. Qed.

Lemma Forall2_Qeq_sym (s t : list Q) : Forall2 Qeq s t -> Forall2 Qeq t s.
Proof. induction 1; constructor; [now symmetry | assumption]. Qed.

Lemma Forall2_Qeq_trans (s t r : list Q) :
  Forall2 Qeq s t -> Forall2 Qeq t r -> Forall2 Qeq s r.
Proof.
  intros H. revert r. induction H as [|x y s t Hxy _ IH]; intros r Hr.
  - exact Hr.
  - inversion Hr as [|? z ? r' Hyz Htr]; subst. constructor.
    + now rewrite Hxy.
    + now apply IH.
Qed.

(** X14.  Equality of Dimensions compares the x-grades and the y-grades
    element by element with the numbers' [==].  It holds exactly when both
    lists agree, and it is reflexive, symmetric and transitive. *)
Theorem X14_dimensions_eq_is_equivalence (d1 d2 d3 : Dimensions.t) :
  (Dimensions.__eq__ d1 d2 = true
   <-> Forall2 Qeq (Dimensions.x_grades d1) (Dimensions.x_grades d2)
       /\ Forall2 Qeq (Dimensions.y_grades d1) (Dimensions.y_grades d2))
  /\ Dimensions.__eq__ d1 d1 = true
  /\ Dimensions.__eq__ d1 d2 = Dimensions.__eq__ d2 d1
  /\ (Dimensions.__eq__ d1 d2 = true -> Dimensions.__eq__ d2 d3 = true ->
      Dimensions.__eq__ d1 d3 = true).
Proof.
  assert (Hchar : forall x y,
    Dimensions.__eq__ x y = true
    <-> Forall2 Qeq (Dimensions.x_grades x) (Dimensions.x_grades y)
        /\ Forall2 Qeq (Dimensions.y_grades x) (Dimensions.y_grades y)).
  { intros x y. unfold Dimensions.__eq__.
    now rewrite andb_true_iff, !seq_eqb_Forall2. }
  split; [apply Hchar|]. split; [|split].
  - apply Hchar. split; apply Forall2_Qeq_refl.
  - apply eq_true_iff_eq. rewrite !Hchar.
    split; intros [? ?]; split; now apply Forall2_Qeq_sym.
  - rewrite !Hchar. intros [? ?] [? ?]. split; eapply Forall2_Qeq_trans; eassumption.
Qed.

Lemma X14_witness :
  Dimensions.__eq__ (Dimensions.__init__ [1 # 2; 1] [1; 2])
                    (Dimensions.__init__ [3 # 6; 2 # 2] [1; 2]) = true.
Proof.
  apply (proj2 (proj2 (proj2 (X14_dimensions_eq_is_equivalence
           (Dimensions.__init__ [1 # 2; 1] [1; 2])
           (Dimensions.__init__ [2 # 4; 1] [1; 2])
           (Dimensions.__init__ [3 # 6; 2 # 2] [1; 2]))))); reflexivity.
Defined.

(** ** Stripping *)

Section Stripping.
Variable A : Type.
Variable isspace : A -> bool.

Lemma lstrip_all_space (s : list A) :
  forallb isspace s = true -> lstrip isspace s = [].
Proof.
  induction s as [|c s IH]; simpl; [reflexivity|].
  destruct (isspace c); simpl; [exact IH | discriminate].
Qed.

Lemma lstrip_head (s r : list A) (c : A) :
  lstrip isspace s = c :: r -> isspace c = false.
Proof.
  induction s as [|d s IH]; simpl; [discriminate|].
  destruct (isspace d) eqn:E; [exact IH | now intros [= <- _]].
Qed.

Lemma lstrip_nil_inv (s : list A) :
  lstrip isspace s = [] -> forallb isspace s = true.
Proof.
  induction s as [|c s IH]; simpl; [reflexivity|].
  destruct (isspace c); simpl; [exact IH | discriminate].
Qed.

Lemma strip_nil_iff (s : list A) :
  strip isspace s = [] <-> forallb isspace s = true.
Proof.
  unfold strip, rstrip. split.
  - intros H. apply (f_equal (@rev A)) in H. rewrite rev_involutive in H. simpl in H.
    apply lstrip_nil_inv in H. rewrite forallb_forall in H.
    destruct (lstrip isspace s) as [|c r] eqn:E.
    + now apply lstrip_nil_inv.
    + pose proof (lstrip_head _ E) as Hc.
      rewrite (H c) in Hc; [discriminate|]. apply -> in_rev. now left.
  - intros H. now rewrite (lstrip_all_space _ H).
Qed.

End Stripping.

Lemma foldM_filter {S A} (body : S -> A -> result S) (keep : A -> bool) (l : list A) :
  (forall st x, keep x = false -> body st x = inr st) ->
  forall st, foldM body (filter keep l) st = foldM body l st.
Proof.
  intros H. induction l as [|x l IH]; intros st; simpl; [reflexivity|].
  destruct (keep x) eqn:E; simpl.
  - destruct (body st x); simpl; [reflexivity | apply IH].
  - rewrite (H st x E). simpl. apply IH.
Qed.

(** ** Blank lines *)

Lemma blank_all_space (line : bytes) :
  blank line = true <-> forallb byte_isspace line = true.
Proof.
  unfold blank, bytes_strip. rewrite <- strip_nil_iff.
  destruct (strip byte_isspace line); split; congruence.
Qed.

Lemma byte_space_is_ascii_space (c : ascii) :
  byte_isspace c = true ->
  (N_of_ascii c <? 128)%N = true /\ str_isspace (N_of_ascii c) = true.
Proof.
  unfold byte_isspace, str_isspace. generalize (N_of_ascii c). intros n H.
  apply orb_true_iff in H. destruct H as [H | H].
  - apply N.eqb_eq in H. subst n. split; reflexivity.
  - apply andb_true_iff in H. destruct H as [H1 H2].
    pose proof (proj1 (N.leb_le _ _) H2) as L2.
    split; [apply N.ltb_lt; lia|]. rewrite H1, H2. reflexivity.
Qed.

Lemma decode_blank (line : bytes) :
  forallb byte_isspace line = true ->
  decode_utf8 line = inr (map N_of_ascii line)
  /\ forallb str_isspace (map N_of_ascii line) = true.
Proof.
  induction line as [|c line IH]; intros H; [split; reflexivity|].
  simpl in H. apply andb_true_iff in H. destruct H as [Hc Hl].
  destruct (byte_space_is_ascii_space _ Hc) as [Hlt Hsp].
  destruct (IH Hl) as [Hd Hall]. split.
  - cbn [decode_utf8]. rewrite Hlt, Hd. reflexivity.
  - cbn [map forallb]. now rewrite Hsp, Hall.
Qed.

Lemma parse_bounds_line_blank (st : list number * list number) (line : bytes) :
  blank line = true -> parse_bounds_line st line = inr st.
Proof.
  intros H. apply blank_all_space in H. destruct (decode_blank _ H) as [Hd Hall].
  unfold parse_bounds_line. destruct st as [low high]. rewrite Hd. cbn [bind].
  unfold str_strip. rewrite (proj2 (strip_nil_iff str_isspace _) Hall). reflexivity.
Qed.

Lemma parse_slices_line_blank (slices : list slice) (line : bytes) :
  blank line = true -> parse_slices_line slices line = inr slices.
Proof. intros H. rewrite parse_slices_line_eq, H. reflexivity. Qed.

(** X15.  The bounds parser and the slice parser skip blank lines: removing
    the lines that consist of white space only, anywhere in the input, changes
    neither the result nor the exception.  On no input at all they return the
    default corners and no slice. *)
Theorem X15_blank_lines_are_skipped (text : list bytes) :
  parse_bounds (nonblank_lines text) = parse_bounds text
  /\ _parse_slices (nonblank_lines text) = _parse_slices text
  /\ _parse_slices [] = inr [].
Proof.
  unfold parse_bounds, _parse_slices, nonblank_lines. split; [|split].
  - rewrite foldM_filter; [reflexivity|].
    intros st x Hx. apply parse_bounds_line_blank. now apply negb_false_iff.
  - apply foldM_filter.
    intros st x Hx. apply parse_slices_line_blank. now apply negb_false_iff.
  - reflexivity.
Qed.

(** ** The bounds parser: order of the two kinds of lines *)

(** X16.  A "low:" line and a "high:" line do not interfere: exchanging two
    neighbouring lines, one of each kind and both well formed, does not change
    the bounds that are parsed. *)
Theorem X16_low_and_high_commute
    (pre post : list bytes) (la lb : bytes) (sa sb : str) (low high : list number) :
  decode_utf8 la = inr sa -> decode_utf8 lb = inr sb ->
  str_startswith (u "low:") (str_strip sa) = true ->
  str_startswith (u "high:") (str_strip sb) = true ->
  float_tuple (skipn 5 (str_strip sa)) = inr low ->
  float_tuple (skipn 6 (str_strip sb)) = inr high ->
  parse_bounds (pre ++ la :: lb :: post) = parse_bounds (pre ++ lb :: la :: post).
Proof.
  intros Ha Hb Hla Hhb Hlow Hhigh.
  assert (Hlb : str_startswith (u "low:") (str_strip sb) = false).
  { destruct (str_startswith (u "low:") (str_strip sb)) eqn:E; [|reflexivity].
    apply low_is_not_high in E. congruence. }
  pose proof (low_is_not_high _ Hla) as Hha.
  assert (Hstep_a : forall l h, parse_bounds_line (l, h) la = inr (low, h)).
  { intros l h. unfold parse_bounds_line. rewrite Ha. cbn [bind].
    rewrite Hla, Hha, Hlow. reflexivity. }
  assert (Hstep_b : forall l h, parse_bounds_line (l, h) lb = inr (l, high)).
  { intros l h. unfold parse_bounds_line. rewrite Hb. cbn [bind].
    rewrite Hlb, Hhb, Hhigh. reflexivity. }
  unfold parse_bounds. rewrite !foldM_app.
  destruct (foldM parse_bounds_line pre _) as [e|[l h]]; [reflexivity|].
  cbn [bind foldM]. rewrite !Hstep_a, !Hstep_b. cbn [bind].
  rewrite Hstep_a, Hstep_b. reflexivity.
Qed.

Lemma X16_witness :
  parse_bounds ([] ++ bt "low: -inf,2" :: bt "high: 3,inf" :: [])
  = parse_bounds ([] ++ bt "high: 3,inf" :: bt "low: -inf,2" :: []).
Proof.
  apply (@X16_low_and_high_commute [] [] (bt "low: -inf,2") (bt "high: 3,inf")
           (u "low: -inf,2") (u "high: 3,inf")
           [Float (S754_infinity true); Float (float_of_Q 2)]
           [Float (float_of_Q 3); Float (S754_infinity false)]);
    vm_compute; reflexivity.
Defined.

(** ** The slice parser: the bars of a line *)

Lemma split_on_snoc_sep {A} (eqb : A -> A -> bool) (sep : A) (s : list A) :
  eqb sep sep = true ->
  split_on eqb sep (s ++ [sep]) = split_on eqb sep s ++ [[]].
Proof.
  intros Hsep. induction s as [|c s IH]; simpl.
  - now rewrite Hsep.
  - destruct (eqb c sep).
    + now rewrite IH.
    + rewrite IH. pose proof (split_on_length eqb sep s) as L.
      destruct (split_on eqb sep s); [discriminate L | reflexivity].
Qed.

(** X17.  The bars of a slice are the comma-separated tokens of the body
    that are not blank, each stripped and parsed, in their order; blank tokens
    add nothing, so a comma at the end of the body changes nothing. *)
Theorem X17_bars_are_the_nonblank_tokens (body : bytes) :
  foldM parse_bars_step (bytes_split "," body) []
  = mapM parse_bar (map bytes_strip (nonblank_lines (bytes_split "," body)))
  /\ foldM parse_bars_step (bytes_split "," (body ++ bt ",")) []
     = foldM parse_bars_step (bytes_split "," body) [].
Proof.
  assert (H : forall parts,
    foldM parse_bars_step parts []
    = mapM parse_bar (map bytes_strip (nonblank_lines parts))).
  { intros parts. rewrite parse_bars_from.
    destruct (mapM parse_bar _) as [e|bs]; reflexivity. }
  split; [apply H|].
  rewrite !H. unfold bytes_split. change (bt ",") with [","%char].
  rewrite split_on_snoc_sep by reflexivity.
  unfold nonblank_lines. rewrite filter_app. simpl. now rewrite app_nil_r.
Qed.

(** ** The parsers: exceptions *)

Lemma foldM_prefix_raises {S A} (body : S -> A -> result S) (l1 l2 : list A)
    (st : S) (e : exn) :
  foldM body l1 st = inl e -> foldM body (l1 ++ l2) st = inl e.
Proof. intros H. now rewrite foldM_app, H. Qed.

(** X18.  The three parsers stop at the first line that raises: if parsing
    some lines raises an exception, parsing these lines followed by any others
    raises the same exception, and no partial result is returned. *)
Theorem X18_parsers_fail_fast (text more : list bytes) (e : exn) :
  (parse_bounds text = inl e -> parse_bounds (text ++ more) = inl e)
  /\ (_parse_betti text = inl e -> _parse_betti (text ++ more) = inl e)
  /\ (_parse_slices text = inl e -> _parse_slices (text ++ more) = inl e).
Proof.
  unfold parse_bounds, _parse_betti, _parse_slices. split; [|split]; intros H.
  - destruct (foldM parse_bounds_line text _) as [e'|[l h]] eqn:E; [|discriminate].
    injection H as ->. now rewrite (foldM_prefix_raises _ _ more _ E).
  - destruct (foldM parse_betti_line text _) as [e'|st] eqn:E; [|discriminate].
    injection H as ->. now rewrite (foldM_prefix_raises _ _ more _ E).
  - now apply foldM_prefix_raises.
Qed.

Lemma X18_witness :
  _parse_slices ([bt "no colon here"] ++ [bt "0 0: 1 2 m1"]) = inl BuiltinValueError.
Proof.
  apply (proj2 (proj2 (X18_parsers_fail_fast [bt "no colon here"] [bt "0 0: 1 2 m1"]
                         BuiltinValueError))).
  reflexivity.
Defined.

(** ** The Betti parser: blank lines and lines without effect *)

Lemma parse_betti_line_blank (st : betti_state) (line : bytes) :
  blank line = true ->
  parse_betti_line st line = inr (set_current_xi None (set_current_grades None st)).
Proof.
  unfold blank, parse_betti_line. destruct (bytes_strip line); [reflexivity | discriminate].
Qed.

Lemma reset_idle (st : betti_state) :
  current_grades st = None -> current_xi st = None ->
  set_current_xi None (set_current_grades None st) = st.
Proof. destruct st. simpl. now intros -> ->. Qed.

Lemma betti_blank_lines_from (lines : list bytes) (st : betti_state) :
  (forall l, In l lines -> blank l = true) ->
  exists st', foldM parse_betti_line lines st = inr st'
              /\ x_grades st' = x_grades st /\ y_grades st' = y_grades st
              /\ xi0 st' = xi0 st /\ xi1 st' = xi1 st /\ xi2 st' = xi2 st
              /\ (current_grades st = None -> current_xi st = None -> st' = st).
Proof.
  revert st. induction lines as [|l lines IH]; intros st H.
  - exists st. cbn. repeat split; auto.
  - cbn [foldM]. rewrite (@parse_betti_line_blank st l (H l (or_introl eq_refl))). cbn [bind].
    destruct (IH (set_current_xi None (set_current_grades None st)))
      as (st' & Hf & Hx & Hy & H0 & H1 & H2 & Hid); [intros l' Hl'; apply H; now right|].
    exists st'. split; [exact Hf|]. repeat split; try assumption.
    intros Hg Hxi. rewrite (@reset_idle st Hg Hxi) in Hid. now apply Hid.
Qed.

(** X19.  Blank lines before the first section and after the last one do not
    change what the Betti parser returns (the output of the engine, split at
    newlines, ends with such a line). *)
Theorem X19_betti_outer_blank_lines (pre text post : list bytes) :
  (forall l, In l pre -> blank l = true) ->
  (forall l, In l post -> blank l = true) ->
  _parse_betti (pre ++ text ++ post) = _parse_betti text.
Proof.
  intros Hpre Hpost. unfold _parse_betti. rewrite foldM_app.
  destruct (@betti_blank_lines_from pre betti_init Hpre) as (st0 & -> & _ & _ & _ & _ & _ & Hid).
  rewrite (Hid eq_refl eq_refl). cbn [bind]. rewrite foldM_app.
  destruct (foldM parse_betti_line text betti_init) as [e|st]; [reflexivity|]. cbn [bind].
  destruct (@betti_blank_lines_from post st Hpost) as (st' & Hf & Hx & Hy & H0 & H1 & H2 & _).
  rewrite Hf. cbn [bind]. now rewrite Hx, Hy, H0, H1, H2.
Qed.

Lemma X19_witness :
  _parse_betti ([bt ""; bt "  "] ++ betti_text ++ [bt ""]) = _parse_betti betti_text.
Proof.
  apply X19_betti_outer_blank_lines.
  - intros l [<- | [<- | []]]; reflexivity.
  - intros l [<- | []]; reflexivity.
Defined.

Lemma parse_betti_line_headerless (line : bytes) :
  headerless line -> parse_betti_line betti_init line = inr betti_init.
Proof.
  intros [Hb | (s & Hd & Hx & Hy & Hxi)].
  - now rewrite parse_betti_line_blank.
  - unfold parse_betti_line. destruct (bytes_strip line) as [|c r] eqn:E.
    + reflexivity.
    + cbn [length Nat.eqb]. rewrite Hd. cbn [bind ret]. rewrite Hx, Hy, Hxi. reflexivity.
Qed.

(** X20.  Lines that are no section header have no effect outside a section:
    on a text in which no line is "x-grades", "y-grades" or starts with "xi_",
    the Betti parser raises nothing and returns the empty MultiBetti, whatever
    else the lines say. *)
Theorem X20_betti_without_headers (text : list bytes) :
  (forall line, In line text -> headerless line) ->
  _parse_betti text = inr empty_betti.
Proof.
  intros H. unfold _parse_betti.
  assert (Hf : foldM parse_betti_line text betti_init = inr betti_init).
  { induction text as [|l text IH]; [reflexivity|].
    cbn [foldM]. rewrite (@parse_betti_line_headerless l (H l (or_introl eq_refl))).
    cbn [bind]. apply IH. intros l' Hl'. apply H. now right. }
  now rewrite Hf.
Qed.

Lemma X20_witness :
  _parse_betti [bt "Error: could not read file"; bt ""; bt "(0,0,1)"] = inr empty_betti.
Proof.
  apply X20_betti_without_headers.
  intros line [<- | [<- | [<- | []]]].
  - right. eexists. repeat split; vm_compute; reflexivity.
  - left. reflexivity.
  - right. eexists. repeat split; vm_compute; reflexivity.
Defined.

(** ** The Betti parser: section headers *)

Section StripNonSpace.
Variable A : Type.
Variable isspace : A -> bool.

Lemma lstrip_snoc_nonspace (l : list A) (c : A) :
  isspace c = false -> exists l', lstrip isspace (l ++ [c]) = l' ++ [c].
Proof.
  intros Hc. induction l as [|d l IH]; simpl.
  - rewrite Hc. now exists [].
  - destruct (isspace d); [exact IH | now exists (d :: l)].
Qed.

Lemma strip_cons_nonspace (c : A) (r : list A) :
  isspace c = false -> exists r', strip isspace (c :: r) = c :: r'.
Proof.
  intros Hc. unfold strip, rstrip. cbn [lstrip]. rewrite Hc. cbn [rev].
  destruct (@lstrip_snoc_nonspace (rev r) c Hc) as [l' ->].
  rewrite rev_app_distr. now exists (rev l').
Qed.

End StripNonSpace.

Lemma ascii_text_error (s : str) (e : exn) :
  ascii_text s = inl e -> e = BuiltinValueError.
Proof.
  revert e. induction s as [|c s IH]; intros e; simpl; [discriminate|].
  destruct (ascii_text s) as [e'|t]; cbn [bind].
  - intros [= <-]. now apply IH.
  - destruct (c <? 128)%N; [discriminate | now intros [= <-]].
Qed.

Lemma Fraction_of_x (r : str) : Fraction (120%N :: r) = inl BuiltinValueError.
Proof.
  unfold Fraction, str_strip.
  destruct (@strip_cons_nonspace N str_isspace 120%N r eq_refl) as [r' ->].
  cbn [ascii_text]. destruct (ascii_text r') as [e|t] eqn:E; cbn [bind].
  - now rewrite (@ascii_text_error r' e E).
  - reflexivity.
Qed.

(** X21.  Inside a grades section every line that is not blank and not a
    grades header is read as a grade.  An "xi_" header that follows the grades
    without a blank line in between is therefore not a header: the parser
    raises the ValueError of a malformed Fraction. *)
Theorem X21_xi_header_inside_grades (st : betti_state) (g : grades_ref)
    (line : bytes) (rest : str) :
  current_grades st = Some g ->
  blank line = false ->
  decode_utf8 (bytes_strip line) = inr (u "xi_" ++ rest) ->
  parse_betti_line st line = inl BuiltinValueError.
Proof.
  intros Hg Hb Hd. unfold parse_betti_line. unfold blank in Hb.
  destruct (bytes_strip line) as [|c r]; [discriminate|].
  cbn [length Nat.eqb]. rewrite Hd. cbn [bind ret].
  change (u "xi_" ++ rest) with (120 :: 105 :: 95 :: rest)%N.
  replace (str_eqb (120 :: 105 :: 95 :: rest)%N (u "x-grades")) with false by reflexivity.
  replace (str_eqb (120 :: 105 :: 95 :: rest)%N (u "y-grades")) with false by reflexivity.
  rewrite Hg, Fraction_of_x. reflexivity.
Qed.

Lemma X21_witness :
  parse_betti_line in_x_grades (bt "xi_0") = inl BuiltinValueError.
Proof.
  apply (@X21_xi_header_inside_grades in_x_grades X_grades (bt "xi_0") (u "0"));
    reflexivity.
Defined.

(** X22.  Outside a grades section, a line that starts with "xi_" selects the
    xi list by the one character that follows: 0, 1 and 2 select xi_0, xi_1
    and xi_2 and change no list, whatever comes after that character; a digit
    from 3 to 9 raises IndexError, and so does "xi_" with nothing after it. *)
Theorem X22_xi_header_selects_by_one_digit (st : betti_state) (line : bytes) :
  current_grades st = None ->
  blank line = false ->
  (forall k rest,
     (k < 10)%nat ->
     decode_utf8 (bytes_strip line) = inr (u "xi_" ++ digit_char k :: rest) ->
     parse_betti_line st line
     = match k with
       | 0%nat => inr (set_current_xi (Some Xi0) st)
       | 1%nat => inr (set_current_xi (Some Xi1) st)
       | 2%nat => inr (set_current_xi (Some Xi2) st)
       | _ => inl IndexError
       end)
  /\ (decode_utf8 (bytes_strip line) = inr (u "xi_") ->
      parse_betti_line st line = inl IndexError).
Proof.
  intros Hg Hb. unfold blank in Hb. unfold parse_betti_line.
  destruct (bytes_strip line) as [|c r]; [discriminate|].
  cbn [length Nat.eqb]. split.
  - intros k rest Hk Hd. rewrite Hd. cbn [bind ret].
    change (u "xi_" ++ digit_char k :: rest) with (120 :: 105 :: 95 :: digit_char k :: rest)%N.
    replace (str_eqb (120 :: 105 :: 95 :: digit_char k :: rest)%N (u "x-grades"))
      with false by reflexivity.
    replace (str_eqb (120 :: 105 :: 95 :: digit_char k :: rest)%N (u "y-grades"))
      with false by reflexivity.
    rewrite Hg.
    replace (str_startswith (u "xi_") (120 :: 105 :: 95 :: digit_char k :: rest)%N)
      with true by reflexivity.
    unfold index. cbn [nth_error bind ret].
    do 10 (destruct k as [|k]; [reflexivity|]). lia.
  - intros Hd. rewrite Hd. cbn [bind ret]. rewrite Hg. reflexivity.
Qed.

Lemma X22_witness :
  parse_betti_line betti_init (bt "xi_1 and more")
  = inr (set_current_xi (Some Xi1) betti_init).
Proof.
  refine (proj1 (@X22_xi_header_selects_by_one_digit betti_init (bt "xi_1 and more")
                   eq_refl eq_refl) 1%nat (u " and more") _ eq_refl).
  lia.
Defined.

(** ** The Betti parser: the lists only grow *)

Lemma extends_refl {A} (l : list A) : extends l l.
Proof. exists []. now rewrite app_nil_r. Qed.

Lemma extends_trans {A} (l1 l2 l3 : list A) : extends l1 l2 -> extends l2 l3 -> extends l1 l3.
Proof. intros [m ->] [n ->]. exists (m ++ n). now rewrite app_assoc. Qed.

Lemma extends_snoc {A} (l : list A) (x : A) : extends l (l ++ [x]).
Proof. now exists [x]. Qed.

Lemma grows_refl (st : betti_state) : grows st st.
Proof. repeat split; apply extends_refl. Qed.

Lemma grows_trans (s1 s2 s3 : betti_state) : grows s1 s2 -> grows s2 s3 -> grows s1 s3.
Proof.
  intros (a1 & a2 & a3 & a4 & a5) (b1 & b2 & b3 & b4 & b5).
  repeat split; eapply extends_trans; eassumption.
Qed.

Ltac grows_step :=
  intros [= <-]; unfold grows; cbn;
  repeat split; first [apply extends_refl | apply extends_snoc].

Lemma parse_betti_line_grows (st st' : betti_state) (line : bytes) :
  parse_betti_line st line = inr st' -> grows st st'.
Proof.
  unfold parse_betti_line.
  destruct (length (bytes_strip line) =? 0)%nat; cbn [bind ret]; [grows_step|].
  destruct (decode_utf8 (bytes_strip line)) as [e|s]; cbn [bind ret]; [discriminate|].
  destruct (str_eqb s (u "x-grades")); [grows_step|].
  destruct (str_eqb s (u "y-grades")); [grows_step|].
  destruct (current_grades st) as [g|].
  - destruct (Fraction s) as [e|q]; cbn [bind ret]; [discriminate|].
    destruct g; grows_step.
  - destruct (str_startswith (u "xi_") s).
    + destruct (index s 3) as [e|c]; cbn [bind ret]; [discriminate|].
      destruct (py_int_str [c]) as [e|k]; cbn [bind ret]; [discriminate|].
      destruct (xi_index k) as [e|r]; cbn [bind ret]; [discriminate|].
      grows_step.
    + destruct (current_xi st) as [r|]; [|grows_step].
      destruct (mapM py_int_str _) as [e|tup]; cbn [bind ret]; [discriminate|].
      destruct r; grows_step.
Qed.

Lemma parse_betti_lines_grow (lines : list bytes) (st st' : betti_state) :
  foldM parse_betti_line lines st = inr st' -> grows st st'.
Proof.
  revert st. induction lines as [|l lines IH]; intros st; cbn [foldM].
  - intros [= <-]. apply grows_refl.
  - destruct (parse_betti_line st l) as [e|st1] eqn:E; cbn [bind]; [discriminate|].
    intros H. eapply grows_trans; [exact (parse_betti_line_grows _ _ E) | exact (IH _ H)].
Qed.

(** X23.  The Betti parser only ever adds to its lists: what it returns for
    a text followed by more lines has, in every list, the entries it returns
    for the text alone, in the same order, followed by the new ones. *)
Theorem X23_betti_lists_only_grow (text more : list bytes) (mb mb' : MultiBetti.t) :
  _parse_betti text = inr mb ->
  _parse_betti (text ++ more) = inr mb' ->
  extends (Dimensions.x_grades (MultiBetti.dimensions mb))
          (Dimensions.x_grades (MultiBetti.dimensions mb'))
  /\ extends (Dimensions.y_grades (MultiBetti.dimensions mb))
             (Dimensions.y_grades (MultiBetti.dimensions mb'))
  /\ extends (MultiBetti.xi_0 mb) (MultiBetti.xi_0 mb')
  /\ extends (MultiBetti.xi_1 mb) (MultiBetti.xi_1 mb')
  /\ extends (MultiBetti.xi_2 mb) (MultiBetti.xi_2 mb').
Proof.
  unfold _parse_betti. rewrite foldM_app.
  destruct (foldM parse_betti_line text betti_init) as [e|st]; cbn [bind ret]; [discriminate|].
  intros [= <-].
  destruct (foldM parse_betti_line more st) as [e|st'] eqn:E; cbn [bind ret]; [discriminate|].
  intros [= <-]. exact (parse_betti_lines_grow _ _ E).
Qed.

Lemma X23_witness :
  extends [[0; 0; 1]%Z]
    (match _parse_betti (betti_text ++ [bt "xi_0"; bt "(1,1,2)"]) with
     | inr mb' => MultiBetti.xi_0 mb'
     | inl _ => []
     end).
Proof.
  exact (proj1 (proj2 (proj2 (@X23_betti_lists_only_grow betti_text
           [bt "xi_0"; bt "(1,1,2)"] _ _ eq_refl eq_refl)))).
Defined.

(** ** File names *)

Lemma uint_chars (d : Decimal.uint) (c : ascii) :
  In c (list_ascii_of_string (NilEmpty.string_of_uint d)) -> is_digit c = true.
Proof.
  induction d; simpl; try (intros [<- | H]; [reflexivity | now apply IHd]).
  intros [].
Qed.

Lemma str_of_Z_chars (z : Z) (c : N) :
  In c (str_of_Z z) -> c = 45%N \/ (48 <= c <= 57)%N.
Proof.
  assert (Hd : forall d a, In a (list_ascii_of_string (NilZero.string_of_uint d)) ->
                           is_digit a = true).
  { intros d a. destruct d; try (intros H; exact (@uint_chars _ a H)).
    simpl. intros [<- | []]. reflexivity. }
  assert (Hn : forall a, is_digit a = true -> (48 <= N_of_ascii a <= 57)%N).
  { intros a H. unfold is_digit, in_range in H. apply andb_true_iff in H.
    destruct H as [H1 H2]. apply N.leb_le in H1, H2. lia. }
  unfold str_of_Z, u. intros H. apply in_map_iff in H. destruct H as (a & <- & Ha).
  destruct (Z.to_int z) as [d|d]; simpl in Ha.
  - right. apply Hn. now apply (Hd d).
  - destruct Ha as [<- | Ha]; [now left|]. right. apply Hn. now apply (Hd d).
Qed.

Lemma u_inj (s t : string) : u s = u t -> s = t.
Proof.
  unfold u. intros H.
  rewrite <- (string_of_list_ascii_of_string s), <- (string_of_list_ascii_of_string t).
  f_equal. revert H. generalize (list_ascii_of_string s) (list_ascii_of_string t).
  intros l. induction l as [|a l IH]; intros [|b m]; simpl; try discriminate.
  - reflexivity.
  - intros [= Hab Hlm]. f_equal; [|now apply IH].
    rewrite <- (ascii_N_embedding a), <- (ascii_N_embedding b). now rewrite Hab.
Qed.

Lemma str_of_Z_inj (a b : Z) : str_of_Z a = str_of_Z b -> a = b.
Proof.
  unfold str_of_Z. intros H. apply u_inj in H.
  assert (Hnn : forall z, Z.to_int z <> Decimal.Pos Decimal.Nil
                          /\ Z.to_int z <> Decimal.Neg Decimal.Nil).
  { intros [|p|p]; simpl; split; try discriminate;
      intros [= E]; exact (DecimalPos.Unsigned.to_uint_nonnil p E). }
  apply (f_equal NilZero.int_of_string) in H.
  rewrite !NilZero.isi in H by apply Hnn.
  injection H as H. rewrite <- (DecimalZ.of_to a), <- (DecimalZ.of_to b). now rewrite H.
Qed.

Lemma split_at_first (c : N) (l1 l2 r1 r2 : str) :
  ~ In c l1 -> ~ In c l2 -> l1 ++ c :: r1 = l2 ++ c :: r2 -> l1 = l2 /\ r1 = r2.
Proof.
  revert l2. induction l1 as [|a l1 IH]; intros [|b l2] H1 H2; simpl.
  - now intros [= ->].
  - intros [= -> _]. destruct H2. now left.
  - intros [= -> _]. destruct H1. now left.
  - intros [= -> H]. destruct (IH l2) as [-> ->]; auto.
    + intros Hin. apply H1. now right.
    + intros Hin. apply H2. now right.
Qed.

Lemma no_underscore (z : Z) : ~ In 95%N (str_of_Z z).
Proof. intros H. apply str_of_Z_chars in H. lia. Qed.

(** X24.  The name of the output file determines the parameters: for one
    input name, different values of homology, x or y (integers) give different
    output names. *)
Theorem X24_rivet_name_is_injective (base : str) (h x y h' x' y' : Z) :
  _rivet_name base h x y = _rivet_name base h' x' y' ->
  h = h' /\ x = x' /\ y = y'.
Proof.
  unfold _rivet_name. intros H.
  apply app_inv_head in H. apply app_inv_head in H.
  change (u "_x" ++ ?t) with (95%N :: 120%N :: t) in H.
  apply split_at_first in H; try apply no_underscore.
  destruct H as [Hh H]. injection H as H.
  change (u "_y" ++ ?t) with (95%N :: 121%N :: t) in H.
  apply split_at_first in H; try apply no_underscore.
  destruct H as [Hx H]. injection H as H.
  apply app_inv_tail in H.
  repeat split; now apply str_of_Z_inj.
Qed.

Lemma X24_witness : (0 = 0 /\ 1 = 1 /\ -2 = -2)%Z.
Proof.
  exact (@X24_rivet_name_is_injective (u "data.txt") 0 1 (-2) 0 1 (-2) eq_refl).
Defined.

(** ** Comments *)

Section SplitJoin.
Variable sep : N.

Lemma str_split_nonempty (s : str) : str_split sep s <> [].
Proof.
  unfold str_split. pose proof (split_on_length N.eqb sep s) as L.
  destruct (split_on N.eqb sep s); [discriminate L | discriminate].
Qed.

Lemma join_cons_cons (p q : str) (ps : list str) :
  join [sep] (p :: q :: ps) = p ++ sep :: join [sep] (q :: ps).
Proof. reflexivity. Qed.

Lemma join_split (s : str) : join [sep] (str_split sep s) = s.
Proof.
  induction s as [|c s IH]; [reflexivity|].
  unfold str_split in *. cbn [split_on].
  pose proof (str_split_nonempty s) as Hne. unfold str_split in Hne.
  destruct (N.eqb_spec c sep) as [->|Hc]; cbv iota.
  - destruct (split_on N.eqb sep s) as [|p ps]; [now destruct Hne|].
    change (sep :: join [sep] (p :: ps) = sep :: s). f_equal. exact IH.
  - destruct (split_on N.eqb sep s) as [|p ps]; [now destruct Hne|].
    destruct ps as [|q ps].
    + change (c :: p = c :: s). f_equal. exact IH.
    + change (c :: join [sep] (p :: q :: ps) = c :: s). f_equal. exact IH.
Qed.

Lemma split_pieces_free (s piece : str) :
  In piece (str_split sep s) -> ~ In sep piece.
Proof.
  revert piece. induction s as [|c s IH]; intros piece.
  - intros [<- | []] [].
  - unfold str_split in *. cbn [split_on].
    pose proof (str_split_nonempty s) as Hne. unfold str_split in Hne.
    destruct (N.eqb_spec c sep) as [->|Hc]; cbv iota.
    + intros [<- | H]; [intros [] | now apply IH].
    + destruct (split_on N.eqb sep s) as [|p ps]; [now destruct Hne|].
      intros [<- | H].
      * intros [E | Hin]; [congruence|]. apply (IH p); [now left | exact Hin].
      * apply IH. now right.
Qed.

End SplitJoin.

Lemma hash_lines (c : str) :
  HASH :: replace_char LF (LF :: u "#") c
  = join [LF] (map (cons HASH) (str_split LF c)).
Proof.
  induction c as [|x c IH]; [reflexivity|].
  unfold replace_char in *. unfold str_split in *. cbn [flat_map split_on].
  pose proof (str_split_nonempty LF c) as Hne. unfold str_split in Hne.
  destruct (N.eqb_spec x LF) as [->|Hx]; cbv iota.
  - destruct (split_on N.eqb LF c) as [|p ps]; [now destruct Hne|].
    change (HASH :: LF :: (HASH :: flat_map (fun y => if (y =? LF)%N then LF :: u "#" else [y]) c)
            = HASH :: LF :: join [LF] (map (cons HASH) (p :: ps))).
    do 2 f_equal. exact IH.
  - destruct (split_on N.eqb LF c) as [|p ps]; [now destruct Hne|].
    destruct ps as [|q ps].
    + change (HASH :: x :: flat_map (fun y => if (y =? LF)%N then LF :: u "#" else [y]) c
              = HASH :: x :: p).
      change (HASH :: flat_map (fun y => if (y =? LF)%N then LF :: u "#" else [y]) c
              = HASH :: p) in IH.
      injection IH as IH. now rewrite IH.
    + change (HASH :: x :: flat_map (fun y => if (y =? LF)%N then LF :: u "#" else [y]) c
              = HASH :: x :: (p ++ LF :: join [LF] (map (cons HASH) (q :: ps)))).
      change (HASH :: flat_map (fun y => if (y =? LF)%N then LF :: u "#" else [y]) c
              = HASH :: (p ++ LF :: join [LF] (map (cons HASH) (q :: ps)))) in IH.
      injection IH as IH. now rewrite IH.
Qed.

(** X25.  [MetricSpace.save] writes a comment as lines that all start with
    "#": after "metric" it writes "#", the comment with "#" put after each of
    its newlines, and a newline, which together are the lines of the comment,
    each with "#" in front.  A comment can therefore not add a line that the
    engine would read as data. *)
Theorem X25_metric_comment_lines (self : MetricSpace.t) (c : str) (out : stream) :
  MetricSpace.comment self = Some c -> c <> [] ->
  exists body rest,
    MetricSpace.save_preamble self out
    = ((u "metric" ++ [LF]) :: u "#" :: body :: [LF] :: rest, inr tt)
    /\ u "#" ++ body = join [LF] (map (cons HASH) (str_split LF c)).
Proof.
  intros Hc Hne. rewrite save_preamble_writes. unfold preamble, comment_block.
  rewrite Hc. destruct c as [|x c]; [now destruct Hne|].
  eexists. eexists. split; [reflexivity|]. apply hash_lines.
Qed.

Lemma X25_witness :
  exists body rest,
    MetricSpace.save_preamble metric_commented []
    = ((u "metric" ++ [LF]) :: u "#" :: body :: [LF] :: rest, inr tt)
    /\ u "#" ++ body = join [LF] [u "#made by"; u "#hand"].
Proof.
  apply (@X25_metric_comment_lines metric_commented _ [] eq_refl). discriminate.
Defined.

Lemma point_cloud_save_head (pc : PointCloud.t) (out : stream) :
  PointCloud.save pc out
  = io_bind (for_each (PointCloud.save_point (PointCloud.second_param_name pc))
               (PointCloud.points pc)) (fun _ => write [LF])
      (out ++ comment_lines (PointCloud.comments pc)
           ++ [u "points" ++ [LF];
               str_of_nat (PointCloud.dimension pc) ++ [LF];
               format_f (PointCloud.max_dist pc) ++ [LF];
               match PointCloud.second_param_name pc with
               | Some n => n ++ [LF]
               | None => u "no function" ++ [LF]
               end]).
Proof.
  unfold PointCloud.save.
  assert (Hc : forall o (k : io unit),
    io_bind (if truthy (PointCloud.comments pc)
             then writelines (map (fun line => u "# " ++ line ++ [LF])
                    (str_split LF (match PointCloud.comments pc with
                                   | Some c => c | None => [] end)))
             else skip) (fun _ => k) o = k (o ++ comment_lines (PointCloud.comments pc))).
  { intros o k. unfold io_bind, comment_lines.
    destruct (PointCloud.comments pc) as [[|c r]|]; simpl; unfold skip, io_ret;
      rewrite ?app_nil_r; reflexivity. }
  rewrite Hc, !write_then.
  destruct (PointCloud.second_param_name pc); rewrite write_then;
    rewrite <- !app_assoc; reflexivity.
Qed.

(** X26.  [PointCloud.save] writes a comment first, one line of the file for
    each line of the comment, as "# ", the line and a newline.  The lines are
    the pieces of the comment between its newlines: none contains a newline,
    and joined by newlines they give the comment back. *)
Theorem X26_point_cloud_comment_lines (pc : PointCloud.t) (c : str) (out : stream) :
  PointCloud.comments pc = Some c -> c <> [] ->
  exists pieces rest outcome,
    PointCloud.save pc out
    = (out ++ map (fun piece => u "# " ++ piece ++ [LF]) pieces ++ rest, outcome)
    /\ join [LF] pieces = c
    /\ forall piece, In piece pieces -> ~ In LF piece.
Proof.
  intros Hc Hne. rewrite point_cloud_save_head, Hc.
  assert (Ha : appends (io_bind
                 (for_each (PointCloud.save_point (PointCloud.second_param_name pc))
                    (PointCloud.points pc)) (fun _ => write [LF]))).
  { apply appends_bind; [|intros _; apply appends_write].
    apply appends_for_each. intros p. apply point_cloud_save_point_appends. }
  rewrite Ha. destruct c as [|x c]; [now destruct Hne|]. cbn [comment_lines].
  exists (str_split LF (x :: c)). eexists. eexists.
  split; [rewrite <- !app_assoc; reflexivity|].
  split; [apply join_split | intros piece; apply split_pieces_free].
Qed.

Lemma X26_witness :
  exists pieces rest outcome,
    PointCloud.save
      {| PointCloud.second_param_name := None; PointCloud.points := cloud0;
         PointCloud.comments := Some (u "two" ++ LF :: u "lines");
         PointCloud.dimension := 2; PointCloud.max_dist := 7 |} []
    = ([] ++ map (fun piece => u "# " ++ piece ++ [LF]) pieces ++ rest, outcome)
    /\ join [LF] pieces = u "two" ++ LF :: u "lines"
    /\ forall piece, In piece pieces -> ~ In LF piece.
Proof.
  apply (@X26_point_cloud_comment_lines
           {| PointCloud.second_param_name := None; PointCloud.points := cloud0;
              PointCloud.comments := Some (u "two" ++ LF :: u "lines");
              PointCloud.dimension := 2; PointCloud.max_dist := 7 |}
           (u "two" ++ LF :: u "lines") [] eq_refl).
  discriminate.
Defined.
